(** * SCU waste dashboard (app.py): the data pipeline, embedded and verified

    The script loads a table of waste measurements, cleans it
    ([load_data]), sums the weights per (Year, Category) ([df_grouped]),
    expands the sums over the grid of the selected years and categories
    ([full_index], [filtered_df]) and hands the result to five views, one of
    which ([agg_pie]) sums it again per category.

    The embedding follows app.py statement by statement.  A call into pandas
    or into Python's [str] and [int] is a function of the same name here that
    gives the call's meaning on the values the script can hold.

    Scope of the model:
    - text is a [string] of bytes and only ASCII characters are classified
      (whitespace, letters, digits); other bytes are kept as they are;
    - float64 values are [spec_float] (the kernel-independent IEEE model of
      the Standard Library); the Aggregator is written over any weight type
      with a zero and an addition: integer weights add exactly ([Z_Additive]),
      float64 weights add with the compensated sum of [groupby]
      ([float64_Additive]), and the conservation theorems say which laws of
      the addition they use;
    - reading the file, the widgets and the chart library are outside. *)

From Stdlib Require Import ZArith NArith List String Ascii Bool Lia Sorted FinFun.
From Stdlib Require Import Floats.SpecFloat.
Import ListNotations.

Local Open Scope Z_scope.
Local Open Scope string_scope.

(** ** Python text: [str.strip], [str.title], [int(str)] *)

Module PyStr.

Definition code (c : ascii) : N := N_of_ascii c.

Definition between (lo hi : N) (c : ascii) : bool :=
  (N.leb lo (code c) && N.leb (code c) hi)%bool.

(** [str.isspace] on ASCII: TAB LF VT FF CR, FS GS RS US, SPACE. *)
Definition isspace (c : ascii) : bool :=
  (between 9 13 c || between 28 32 c)%bool.

Definition isupper (c : ascii) : bool := between 65 90 c.
Definition islower (c : ascii) : bool := between 97 122 c.
Definition iscased (c : ascii) : bool := (isupper c || islower c)%bool.
Definition isdigit (c : ascii) : bool := between 48 57 c.

Definition upper (c : ascii) : ascii :=
  if islower c then ascii_of_N (code c - 32) else c.

Definition lower (c : ascii) : ascii :=
  if isupper c then ascii_of_N (code c + 32) else c.

Fixpoint lstrip (s : string) : string :=
  match s with
  | EmptyString => EmptyString
  | String c t => if isspace c then lstrip t else s
  end.

Fixpoint rstrip (s : string) : string :=
  match s with
  | EmptyString => EmptyString
  | String c t =>
      match rstrip t with
      | EmptyString => if isspace c then EmptyString else String c EmptyString
      | t' => String c t'
      end
  end.

(** [s.strip()] *)
Definition strip (s : string) : string := rstrip (lstrip s).

(** The loop of [s.title()]: a character that follows a cased character is
    lowered, any other is raised; [previous_is_cased] starts false. *)
Fixpoint title_from (previous_is_cased : bool) (s : string) : string :=
  match s with
  | EmptyString => EmptyString
  | String c t =>
      String (if previous_is_cased then lower c else upper c)
             (title_from (iscased c) t)
  end.

(** [s.title()] *)
Definition title (s : string) : string := title_from false s.

Definition digit_val (c : ascii) : Z := Z.of_N (code c) - 48.

(** The whitespace [int] skips in ASCII text (C's [isspace]): TAB LF VT FF
    CR and SPACE, but not FS GS RS US. *)
Definition isspace_c (c : ascii) : bool :=
  (between 9 13 c || Ascii.eqb c " ")%bool.

Fixpoint skip_spaces (s : string) : string :=
  match s with
  | EmptyString => EmptyString
  | String c t => if isspace_c c then skip_spaces t else s
  end.

Fixpoint all_spaces_c (s : string) : bool :=
  match s with
  | EmptyString => true
  | String c t => (isspace_c c && all_spaces_c t)%bool
  end.

(** [sys.int_info.default_max_str_digits]: a longer run of digits is
    refused with ValueError. *)
Definition max_str_digits : Z := 4300.

(** Decimal digits with single underscores between them, then whitespace
    to the end; [n] counts the digits read. *)
Fixpoint digits (acc n : Z) (after_digit : bool) (s : string) : option Z :=
  match s with
  | EmptyString =>
      if (after_digit && Z.leb n max_str_digits)%bool then Some acc else None
  | String c t =>
      if isdigit c then digits (10 * acc + digit_val c) (n + 1) true t
      else if (Ascii.eqb c "_" && after_digit)%bool then digits acc n false t
      else if (after_digit && all_spaces_c s && Z.leb n max_str_digits)%bool
           then Some acc
           else None
  end.

(** [int(s)] for a [str] of ASCII text: leading whitespace, an optional
    sign, the digits, trailing whitespace; [None] is Python's ValueError. *)
Definition int (s : string) : option Z :=
  match skip_spaces s with
  | String "-" t => option_map Z.opp (digits 0 0 false t)
  | String "+" t => digits 0 0 false t
  | t => digits 0 0 false t
  end.

End PyStr.

(** ** pandas values *)

(** A float64 cell; [S754_nan] is pandas' missing marker NaN. *)
Definition float64 : Type := spec_float.
Definition NaN : float64 := S754_nan.

(** A cell of a numeric column (int64 or float64). *)
Inductive number : Type :=
| Int (z : Z)
| Float (x : float64).

(** A cell of a frame as [pd.read_csv] returns it: text in an object column,
    a number in a numeric column; an empty field is [Num (Float NaN)]. *)
Inductive scalar : Type :=
| Str (s : string)
| Num (n : number).

Definition isna_number (n : number) : bool :=
  match n with
  | Float S754_nan => true
  | _ => false
  end.

(** [pd.isna] on a cell. *)
Definition isna (v : scalar) : bool :=
  match v with
  | Str _ => false
  | Num n => isna_number n
  end.

(** The three columns the script reads, per row.  The column types change
    along [load_data], so the row is polymorphic in them. *)
Record Row (C Wt Y : Type) : Type := mkRow {
  Category : C;
  Weight : Wt;
  Year : Y
}.
Arguments mkRow {C Wt Y} _ _ _.
Arguments Category {C Wt Y} _.
Arguments Weight {C Wt Y} _.
Arguments Year {C Wt Y} _.

(** A row of the frame read from the file. *)
Definition RawRecord : Type := Row scalar scalar scalar.

(** A row of the frame [load_data] returns, with weights in [W]. *)
Definition CleanRecord (W : Type) : Type := Row string W Z.

(** The exceptions [load_data] can raise after the file is read. *)
Inductive exception : Type :=
| AttributeError   (* .str on a column that is not text *)
| ValueError       (* int() of a text that is no integer; a non-finite float cast to int *)
| OverflowError.   (* an integer text outside int64 *)

Inductive result (A : Type) : Type :=
| OK (a : A)
| Raise (e : exception).
Arguments OK {A} _.
Arguments Raise {A} _.

Definition bind {A B : Type} (r : result A) (k : A -> result B) : result B :=
  match r with
  | OK a => k a
  | Raise e => Raise e
  end.

Notation "x <- r ;; k" := (bind r (fun x => k))
  (at level 61, r at next level, right associativity).

(** Run [f] over a column, stopping at the first exception. *)
Fixpoint mapM {A B : Type} (f : A -> result B) (l : list A) : result (list B) :=
  match l with
  | [] => OK []
  | a :: t => b <- f a ;; bs <- mapM f t ;; OK (b :: bs)
  end.

Definition int64_min : Z := - 2 ^ 63.
Definition int64_max : Z := 2 ^ 63 - 1.

Definition in_int64 (z : Z) : bool :=
  (Z.leb int64_min z && Z.leb z int64_max)%bool.

(** The C cast of an integer to int64: the value modulo 2^64, read as a
    signed number.  An int64 is left as it is; a uint64 above the int64
    range wraps to a negative number. *)
Definition wrap_int64 (z : Z) : Z := (z + 2 ^ 63) mod 2 ^ 64 - 2 ^ 63.

(** The integer part of a finite float64, rounded toward zero. *)
Definition trunc (x : float64) : Z :=
  match x with
  | S754_finite s m e =>
      let a := if Z.leb 0 e then Z.pos m * 2 ^ e else Z.pos m / 2 ^ (- e) in
      if s then - a else a
  | _ => 0
  end.

Definition is_finite (x : float64) : bool :=
  match x with
  | S754_zero _ | S754_finite _ _ _ => true
  | S754_infinity _ | S754_nan => false
  end.

(** The float64 nearest to an integer (the cast int64 -> float64). *)
Definition float_of_Z (z : Z) : float64 := binary_normalize 53 1024 z 0 false.

Definition is_int (n : number) : bool :=
  match n with
  | Int _ => true
  | Float _ => false
  end.

Definition as_float (n : number) : float64 :=
  match n with
  | Int z => float_of_Z z
  | Float x => x
  end.

(** The C cast float64 -> int64 of numpy on x86-64: the truncation when it
    fits, the most negative int64 otherwise. *)
Definition float_to_int64 (x : float64) : Z :=
  if in_int64 (trunc x) then trunc x else int64_min.

(** ** The Loader: [load_data] *)

Section Loader.

(** How [pd.to_numeric] reads a text cell: the number it denotes, NaN for
    a text that is no number ([errors="coerce"]). *)
Variable read_number : string -> number.

(** [col.str]: the accessor exists on an object column only.  A column
    read from a file is an object column when it holds some text, or has no
    rows. *)
Definition is_str (v : scalar) : bool :=
  match v with
  | Str _ => true
  | Num _ => false
  end.

Definition is_object (col : list scalar) : bool :=
  match col with
  | [] => true
  | _ => existsb is_str col
  end.

Definition str_accessor (col : list scalar) : result (list scalar) :=
  if is_object col then OK col else Raise AttributeError.

(** [.str.strip().str.title()] on one cell: a cell that is not text gives
    NaN, here [None]. *)
Definition str_strip_title (v : scalar) : option string :=
  match v with
  | Str s => Some (PyStr.title (PyStr.strip s))
  | Num _ => None
  end.

Definition to_numeric_cell (v : scalar) : number :=
  match v with
  | Str s => read_number s
  | Num n => n
  end.

(** [pd.to_numeric(col, errors="coerce")] at the cell [v] of [col]: every
    cell is read; the result is an int64 column when every cell reads as an
    integer, and a float64 column otherwise, its integers converted. *)
Definition to_numeric (col : list scalar) (v : scalar) : number :=
  if forallb (fun u => is_int (to_numeric_cell u)) col then to_numeric_cell v
  else Float (as_float (to_numeric_cell v)).

(** [df.dropna(subset=["Weight (lbs)", "Year", "Category"])]: a row stays
    when none of the three cells is missing. *)
Definition dropna (df : list (Row (option string) number scalar))
  : list (Row string number scalar) :=
  flat_map (fun r =>
    match Category r with
    | Some c =>
        if (isna_number (Weight r) || isna (Year r))%bool then []
        else [mkRow c (Weight r) (Year r)]
    | None => []
    end) df.

(** [col.astype(int)] on one cell: an integer (int64 or uint64) is cast by
    wrapping, a float64 by truncation when it is finite, a text by [int]. *)
Definition astype_int (v : scalar) : result Z :=
  match v with
  | Num (Int z) => OK (wrap_int64 z)
  | Num (Float x) =>
      if is_finite x then OK (float_to_int64 x) else Raise ValueError
  | Str s =>
      match PyStr.int s with
      | Some z => if in_int64 z then OK z else Raise OverflowError
      | None => Raise ValueError
      end
  end.

(** [load_data], after [pd.read_csv] has produced [df]. *)
Definition load_data (df : list RawRecord) : result (list (CleanRecord number)) :=
  (* df["Category"] = df["Category"].str.strip().str.title() *)
  _ <- str_accessor (map Category df) ;;
  let df1 := map (fun r => mkRow (str_strip_title (Category r)) (Weight r) (Year r)) df in
  (* df["Weight (lbs)"] = pd.to_numeric(df["Weight (lbs)"], errors="coerce") *)
  let df2 := map (fun r => mkRow (Category r) (to_numeric (map Weight df1) (Weight r))
                               (Year r)) df1 in
  (* df = df.dropna(subset=["Weight (lbs)", "Year", "Category"]) *)
  let df3 := dropna df2 in
  (* df["Year"] = df["Year"].astype(int) *)
  mapM (fun r => y <- astype_int (Year r) ;; OK (mkRow (Category r) (Weight r) y)) df3.

End Loader.

(** A reader for running [load_data] on examples: a text of decimal digits
    with an optional sign is read as that integer (as a float64 when it is
    outside int64), every other text as NaN.  [pd.to_numeric] reads more
    texts as numbers (decimals, exponents); the theorems hold for every
    reader. *)
Fixpoint plain_digits (acc : Z) (s : string) : option Z :=
  match s with
  | EmptyString => Some acc
  | String c t =>
      if PyStr.isdigit c then plain_digits (10 * acc + PyStr.digit_val c) t
      else None
  end.

Definition plain_integer (s : string) : option Z :=
  match s with
  | EmptyString => None
  | String "-" (String c t) => option_map Z.opp (plain_digits 0 (String c t))
  | String "+" (String c t) => plain_digits 0 (String c t)
  | String "-" EmptyString | String "+" EmptyString => None
  | _ => plain_digits 0 s
  end.

Definition read_integer (s : string) : number :=
  match plain_integer s with
  | Some z => if in_int64 z then Int z else Float (float_of_Z z)
  | None => Float NaN
  end.


(** ** Weights *)

(** What the Aggregator needs of a weight: the zero of [fill_value=0] and of
    an empty sum, and the addition [sum()] accumulates with. *)
Class Additive (W : Type) : Type := {
  wzero : W;
  wadd : W -> W -> W
}.

(** Exact arithmetic: the addition is associative and commutative and zero
    is neutral.  Integers have these laws; float64 addition rounds and has
    not (it is not associative). *)
Class ExactNum (W : Type) {WA : Additive W} : Prop := {
  wadd_assoc : forall a b c : W, wadd a (wadd b c) = wadd (wadd a b) c;
  wadd_comm : forall a b : W, wadd a b = wadd b a;
  wadd_zero_l : forall a : W, wadd wzero a = a
}.

#[export] Instance Z_Additive : Additive Z := {| wzero := 0; wadd := Z.add |}.

(** float64 weights.  [groupby(...).sum()] adds a float64 column with a
    compensated (Kahan) sum: beside the running sum of each group it keeps
    the running compensation, the rounding error of the last addition, takes
    it off the next value, and a compensation that is NaN (after an
    infinity) is reset to zero.  The accumulator is the pair; the cell of
    the result is its first component.  A float64 weight [x] enters the
    Aggregator as [float64_cell x]. *)
Definition float64_zero : float64 := S754_zero false.

Definition kahan : Type := (float64 * float64)%type.

Definition kahan_add (acc : kahan) (val : float64) : kahan :=
  let y := SFsub 53 1024 val (snd acc) in
  let t := SFadd 53 1024 (fst acc) y in
  let c := SFsub 53 1024 (SFsub 53 1024 t (fst acc)) y in
  (t, match c with S754_nan => float64_zero | _ => c end).

Definition float64_cell (x : float64) : kahan := (x, float64_zero).

Definition float64_value (w : kahan) : float64 := fst w.

#[export] Instance float64_Additive : Additive kahan :=
  {| wzero := (float64_zero, float64_zero);
     wadd := fun acc w => kahan_add acc (float64_value w) |}.

(** The plain float64 sum, left to right, and the exact sum of float64
    values that are whole numbers. *)
Definition plain_sum (xs : list float64) : float64 :=
  fold_left (SFadd 53 1024) xs float64_zero.

Definition exact_sum (xs : list float64) : Z :=
  fold_left Z.add (map trunc xs) 0.

(** [sum()] of a column: one accumulator, the cells added in row order. *)
Definition sum_weights {W : Type} {WA : Additive W} (ws : list W) : W :=
  fold_left wadd ws wzero.

(** ** Keys and their order *)

(** The order [groupby] sorts its group keys by. *)
Class KeyOrder {K : Type} (cmp : K -> K -> comparison) : Prop := {
  cmp_eq : forall a b : K, cmp a b = Eq <-> a = b;
  cmp_antisym : forall a b : K, cmp a b = CompOpp (cmp b a);
  cmp_trans : forall a b c : K, cmp a b = Lt -> cmp b c = Lt -> cmp a c = Lt
}.

(** A (Year, Category) label. *)
Abbreviation label := (Z * string)%type (only parsing).

(** Tuples compare lexicographically: Year first, then Category. *)
Definition label_compare (a b : label) : comparison :=
  match Z.compare (fst a) (fst b) with
  | Eq => String.compare (snd a) (snd b)
  | o => o
  end.

Definition is_Eq (o : comparison) : bool :=
  match o with
  | Eq => true
  | _ => false
  end.

(** ** [groupby(...).sum()] *)

Section GroupBy.

Context {K W : Type} {WA : Additive W}.
Variable cmp : K -> K -> comparison.

(** One row met by the summing pass: its weight is added to the accumulator
    of its key; a key met for the first time gets an accumulator that starts
    at zero.  The groups are kept in key order ([sort=True]).  What adding
    is comes from the weights: exact for integers, the compensated step
    [kahan_add] for float64. *)
Fixpoint accumulate (k : K) (w : W) (groups : list (K * W)) : list (K * W) :=
  match groups with
  | [] => [(k, wadd wzero w)]
  | (k', s) :: t =>
      match cmp k k' with
      | Lt => (k, wadd wzero w) :: groups
      | Eq => (k', wadd s w) :: t
      | Gt => (k', s) :: accumulate k w t
      end
  end.

(** [rows.groupby(key)[val].sum()]: one pass over the rows. *)
Definition groupby_sum {R : Type} (key : R -> K) (val : R -> W) (rows : list R)
  : list (K * W) :=
  fold_left (fun groups r => accumulate (key r) (val r) groups) rows [].

End GroupBy.

(** ** The Aggregator/Reindexer *)

Section Aggregator.

Context {W : Type} {WA : Additive W}.

Definition key (r : CleanRecord W) : label := (Year r, Category r).

(** [df_grouped = df.groupby(["Year", "Category"])["Weight (lbs)"].sum().reset_index()] *)
Definition df_grouped (df : list (CleanRecord W)) : list (CleanRecord W) :=
  map (fun g => mkRow (snd (fst g)) (snd g) (fst (fst g)))
      (groupby_sum label_compare key Weight df).

(** [range(lo, hi)] *)
Definition range (lo hi : Z) : list Z :=
  map (fun i => lo + Z.of_nat i) (seq 0 (Z.to_nat (hi - lo))).

(** [years_full = list(range(2005, 2026))] *)
Definition years_full : list Z := range 2005 2026.

(** [col.unique()]: the distinct values in order of first appearance. *)
Fixpoint unique_from (seen : list string) (l : list string) : list string :=
  match l with
  | [] => []
  | x :: t =>
      if existsb (String.eqb x) seen then unique_from seen t
      else x :: unique_from (x :: seen) t
  end.

Definition unique (l : list string) : list string := unique_from [] l.

Fixpoint insert_sorted (x : string) (l : list string) : list string :=
  match l with
  | [] => [x]
  | y :: t => if String.leb x y then x :: l else y :: insert_sorted x t
  end.

(** [sorted(l)] on strings. *)
Definition sorted (l : list string) : list string :=
  fold_left (fun acc x => insert_sorted x acc) l [].

(** [categories_unique = sorted(df_grouped["Category"].unique())] *)
Definition categories_unique (df : list (CleanRecord W)) : list string :=
  sorted (unique (map Category (df_grouped df))).

(** [pd.MultiIndex.from_product([l1, l2])]: the first level varies slowest. *)
Definition from_product {A B : Type} (l1 : list A) (l2 : list B) : list (A * B) :=
  flat_map (fun a => map (pair a) l2) l1.

(** [full_index = pd.MultiIndex.from_product(
       [range(min_year, max_year + 1), selected_categories], ...)] *)
Definition full_index (min_year max_year : Z) (selected_categories : list string)
  : list label :=
  from_product (range min_year (max_year + 1)) selected_categories.

Definition has_label (l : label) (r : CleanRecord W) : bool :=
  (Z.eqb (Year r) (fst l) && String.eqb (Category r) (snd l))%bool.

(** [frame.set_index(["Year", "Category"]).reindex(index, fill_value=v)
          .reset_index()]: one row per label of [index], in its order, with
    the weight the frame has at that label, or [v] when it has none.  (pandas
    refuses a frame whose labels repeat; [df_grouped] has none that do, see
    [df_grouped_labels_NoDup].) *)
Definition reindex (frame : list (CleanRecord W)) (index : list label)
  (fill_value : W) : list (CleanRecord W) :=
  map (fun l =>
         match find (has_label l) frame with
         | Some r => mkRow (snd l) (Weight r) (fst l)
         | None => mkRow (snd l) fill_value (fst l)
         end) index.

(** [filtered_df = df_grouped.set_index(["Year", "Category"])
                             .reindex(full_index, fill_value=0).reset_index()] *)
Definition filtered_df (df : list (CleanRecord W)) (min_year max_year : Z)
  (selected_categories : list string) : list (CleanRecord W) :=
  reindex (df_grouped df) (full_index min_year max_year selected_categories) wzero.

(** [agg_pie = filtered_df.groupby("Category")["Weight (lbs)"].sum().reset_index()]:
    rows (Category, Weight). *)
Definition agg_pie (table : list (CleanRecord W)) : list (string * W) :=
  groupby_sum String.compare Category Weight table.

(** The data each view is given: the pie chart gets [agg_pie]; the bar, line
    and dot charts and the table get [filtered_df] itself. *)
Record Views : Type := mkViews {
  pie : list (string * W);
  bar : list (CleanRecord W);
  line : list (CleanRecord W);
  dot : list (CleanRecord W);
  table : list (CleanRecord W)
}.

(** One render pass of the script after [df = load_data()]. *)
Definition dashboard (df : list (CleanRecord W)) (min_year max_year : Z)
  (selected_categories : list string) : Views :=
  let filtered := filtered_df df min_year max_year selected_categories in
  {| pie := agg_pie filtered;
     bar := filtered;
     line := filtered;
     dot := filtered;
     table := filtered |}.

End Aggregator.

(** ** Notions the statements are written with *)

Section Notions.

Context {K W : Type} {WA : Additive W}.
Variable cmp : K -> K -> comparison.

(** The accumulator the groups hold for key [k], if any. *)
Definition assoc (k : K) (groups : list (K * W)) : option W :=
  option_map snd (find (fun g => is_Eq (cmp k (fst g))) groups).

(** The rows of key [k]. *)
Definition members {R : Type} (key : R -> K) (k : K) (rows : list R) : list R :=
  filter (fun r => is_Eq (cmp k (key r))) rows.

(** Groups in strictly increasing key order. *)
Definition increasing (groups : list (K * W)) : Prop :=
  StronglySorted (fun a b => cmp (fst a) (fst b) = Lt) groups.

End Notions.

Definition in_category {W : Type} (c : string) (r : CleanRecord W) : bool :=
  String.eqb (Category r) c.

Definition in_years {W : Type} (y0 y1 : Z) (r : CleanRecord W) : bool :=
  (Z.leb y0 (Year r) && Z.leb (Year r) y1)%bool.

(** The weight the Aggregate table holds at a label: the sum of the clean
    records of that label. *)
Definition cell {W : Type} {WA : Additive W} (df : list (CleanRecord W)) (l : label)
  : CleanRecord W :=
  mkRow (snd l) (sum_weights (map Weight (filter (has_label l) df))) (fst l).

(** A weight that is a finite number, zero or above. *)
Definition nonneg_finite (n : number) : bool :=
  match n with
  | Int z => Z.leb 0 z
  | Float (S754_zero _) => true
  | Float (S754_finite s _ _) => negb s
  | Float _ => false
  end.

(** A raw row none of whose three cells is missing after the coercions;
    [col] is the Weight column of its frame. *)
Definition complete (read_number : string -> number) (col : list scalar)
  (r : RawRecord) : bool :=
  (is_str (Category r) && negb (isna_number (to_numeric read_number col (Weight r)))
   && negb (isna (Year r)))%bool.

(** A Year cell of a numeric column without infinities: an integer, a
    finite float, or the missing marker. *)
Definition year_is_number (v : scalar) : bool :=
  match v with
  | Num (Int _) => true
  | Num (Float x) => (is_finite x || isna v)%bool
  | Str _ => false
  end.

(** ASCII text: every character is below 128.  On such text the functions
    of [PyStr] are Python's. *)
Fixpoint is_ascii (s : string) : bool :=
  match s with
  | EmptyString => true
  | String c t => (N.ltb (PyStr.code c) 128 && is_ascii t)%bool
  end.

(** The texts of a column are ASCII. *)
Definition ascii_texts (col : list scalar) : Prop :=
  Forall (fun v => match v with
                   | Str s => is_ascii s = true
                   | Num _ => True
                   end) col.

(** Text made of whitespace only. *)
Fixpoint all_space (s : string) : bool :=
  match s with
  | EmptyString => true
  | String c t => (PyStr.isspace c && all_space t)%bool
  end.

Definition starts_with_space (s : string) : bool :=
  match s with
  | EmptyString => false
  | String c _ => PyStr.isspace c
  end.

Fixpoint ends_with_space (s : string) : bool :=
  match s with
  | EmptyString => false
  | String c EmptyString => PyStr.isspace c
  | String _ t => ends_with_space t
  end.

(** The test of [str.istitle] on the casing: an upper-case letter never
    follows a cased character, a lower-case letter always does. *)
Fixpoint titlecased_from (previous_is_cased : bool) (s : string) : bool :=
  match s with
  | EmptyString => true
  | String c t =>
      ((if PyStr.isupper c then negb previous_is_cased
        else if PyStr.islower c then previous_is_cased
        else true)
       && titlecased_from (PyStr.iscased c) t)%bool
  end.

(** What [load_data] makes of a raw row it keeps. *)
Definition cleaned (read_number : string -> number) (col : list scalar)
  (raw : RawRecord) (rec : CleanRecord number) : Prop :=
  str_strip_title (Category raw) = Some (Category rec) /\
  Weight rec = to_numeric read_number col (Weight raw) /\
  astype_int (Year raw) = OK (Year rec).

(** [s.lower()] on ASCII text; two texts with the same image differ in
    letter case only. *)
Fixpoint lowercase (s : string) : string :=
  match s with
  | EmptyString => EmptyString
  | String c t => String (PyStr.lower c) (lowercase t)
  end.

(** The first render of the script: the controls hold their defaults,
    [value=(years_full[0], years_full[-1])] and [default=categories_unique]. *)
Definition initial_dashboard {W : Type} {WA : Additive W} (df : list (CleanRecord W))
  : Views :=
  dashboard df (hd 0 years_full) (last years_full 0) (categories_unique df).

(** Strings in ascending order, as [sorted] leaves them. *)
Definition ascending (l : list string) : Prop :=
  StronglySorted (fun a b => String.leb a b = true) l.

(** Rows in strictly increasing (Year, Category) order. *)
Definition labels_increasing {W : Type} (rows : list (CleanRecord W)) : Prop :=
  StronglySorted (fun a b => label_compare (key a) (key b) = Lt) rows.

(** A record that passes both filters of the sidebar. *)
Definition selected {W : Type} (y0 y1 : Z) (C : list string) (r : CleanRecord W) : bool :=
  (in_years y0 y1 r && existsb (String.eqb (Category r)) C)%bool.

Definition spec_example : list (CleanRecord Z) :=
  [mkRow "Paper" 10 2020; mkRow "Paper" 5 2020; mkRow "Glass" 3 2021].

(** float64 records whose sums round: one weight of 2^53 and weights of 1. *)
Definition heavy_and_light : list (CleanRecord kahan) :=
  [mkRow "Paper" (float64_cell (float_of_Z (2 ^ 53))) 2020;
   mkRow "Paper" (float64_cell (float_of_Z 1)) 2020;
   mkRow "Paper" (float64_cell (float_of_Z 1)) 2021;
   mkRow "Paper" (float64_cell (float_of_Z 1)) 2021].


Definition float64_values (rows : list (CleanRecord kahan)) : list float64 :=
  map (fun r => float64_value (Weight r)) rows.

(** The same records in another order, and with a record dated before the
    fixed axis. *)
Definition spec_example_reordered : list (CleanRecord Z) :=
  [mkRow "Paper" 5 2020; mkRow "Paper" 10 2020; mkRow "Glass" 3 2021].


(** * Proofs *)

(** ** Orders on keys *)

#[export] Instance Z_KeyOrder : KeyOrder Z.compare.
Proof.
  split.
  - apply Z.compare_eq_iff.
  - intros a b. apply Z.compare_antisym.
  - intros a b c. rewrite !Z.compare_lt_iff. lia.
Qed.

Lemma ascii_compare_refl (a : ascii) : Ascii.compare a a = Eq.
Proof. unfold Ascii.compare. apply N.compare_refl. Qed.

Lemma ascii_compare_trans (a b c : ascii) :
  Ascii.compare a b = Lt -> Ascii.compare b c = Lt -> Ascii.compare a c = Lt.
Proof. unfold Ascii.compare. rewrite !N.compare_lt_iff. lia. Qed.

Lemma string_compare_refl (s : string) : String.compare s s = Eq.
Proof.
  induction s as [|a s IH]; simpl; [reflexivity|].
  now rewrite ascii_compare_refl.
Qed.

Lemma string_compare_trans (s1 s2 s3 : string) :
  String.compare s1 s2 = Lt -> String.compare s2 s3 = Lt -> String.compare s1 s3 = Lt.
Proof.
  revert s2 s3.
  induction s1 as [|a s1 IH]; intros [|b s2] [|c s3]; simpl; try easy.
  destruct (Ascii.compare a b) eqn:Hab; try easy;
    destruct (Ascii.compare b c) eqn:Hbc; try easy; intros H12 H23.
  - apply Ascii.compare_eq_iff in Hab, Hbc. subst.
    rewrite ascii_compare_refl. eauto.
  - apply Ascii.compare_eq_iff in Hab. subst. now rewrite Hbc.
  - apply Ascii.compare_eq_iff in Hbc. subst. now rewrite Hab.
  - now rewrite (ascii_compare_trans _ _ _ Hab Hbc).
Qed.

#[export] Instance string_KeyOrder : KeyOrder String.compare.
Proof.
  split.
  - intros a b. split; [apply String.compare_eq_iff|].
    intros ->. apply string_compare_refl.
  - apply String.compare_antisym.
  - apply string_compare_trans.
Qed.

#[export] Instance label_KeyOrder : KeyOrder label_compare.
Proof.
  split.
  - intros [y c] [y' c']. unfold label_compare. simpl. split.
    + destruct (Z.compare y y') eqn:Hy; try easy.
      intros Hc. apply (cmp_eq (cmp := Z.compare)) in Hy.
      apply (cmp_eq (cmp := String.compare)) in Hc. now subst.
    + intros [= -> ->]. rewrite Z.compare_refl. apply string_compare_refl.
  - intros [y c] [y' c']. unfold label_compare. simpl.
    rewrite (Z.compare_antisym y' y), (String.compare_antisym c c').
    now destruct (Z.compare y' y).
  - intros [y1 c1] [y2 c2] [y3 c3]. unfold label_compare. simpl.
    destruct (Z.compare y1 y2) eqn:H12; try easy;
      destruct (Z.compare y2 y3) eqn:H23; try easy; intros Ha Hb.
    + apply Z.compare_eq_iff in H12, H23. subst. rewrite Z.compare_refl.
      eapply string_compare_trans; eauto.
    + apply Z.compare_eq_iff in H12. subst. now rewrite H23.
    + apply Z.compare_eq_iff in H23. subst. now rewrite H12.
    + rewrite Z.compare_lt_iff in H12, H23.
      assert (H13 : Z.compare y1 y3 = Lt) by (apply Z.compare_lt_iff; lia).
      now rewrite H13.
Qed.

(** ** The summing pass of [groupby] *)

Section GroupByFacts.

Context {K W : Type} {WA : Additive W}.
Context (cmp : K -> K -> comparison) {KO : KeyOrder cmp}.

Lemma cmp_refl (k : K) : cmp k k = Eq.
Proof. now apply cmp_eq. Qed.

Lemma is_Eq_true (a b : K) : is_Eq (cmp a b) = true <-> a = b.
Proof.
  rewrite <- (cmp_eq (cmp := cmp)). destruct (cmp a b); simpl; split; congruence.
Qed.

Lemma cmp_Gt_Lt (a b : K) : cmp a b = Gt -> cmp b a = Lt.
Proof. intros H. rewrite cmp_antisym, H. reflexivity. Qed.

Lemma assoc_cons (q k : K) (s : W) (t : list (K * W)) :
  assoc cmp q ((k, s) :: t) = if is_Eq (cmp q k) then Some s else assoc cmp q t.
Proof. unfold assoc. simpl. now destruct (is_Eq (cmp q k)). Qed.

(** Below the least key nothing is found. *)
Lemma assoc_below (q : K) (groups : list (K * W)) :
  Forall (fun g => cmp q (fst g) = Lt) groups -> assoc cmp q groups = None.
Proof.
  induction 1 as [|[k s] t Hk _ IH]; [reflexivity|].
  rewrite assoc_cons. simpl in Hk. now rewrite Hk.
Qed.

Lemma accumulate_keys (k : K) (w : W) (groups : list (K * W)) (g : K * W) :
  In g (accumulate cmp k w groups) ->
  fst g = k \/ exists g', In g' groups /\ fst g' = fst g.
Proof.
  induction groups as [|[k' s] t IH]; simpl.
  - intros [<-|[]]. now left.
  - destruct (cmp k k') eqn:Hc; simpl.
    + intros [<-|Hin].
      * right. exists (k', s). auto.
      * right. exists g. auto.
    + intros [<-|[<-|Hin]].
      * now left.
      * right. exists (k', s). auto.
      * right. exists g. auto.
    + intros [<-|Hin].
      * right. exists (k', s). auto.
      * destruct (IH Hin) as [?|(g' & ? & ?)]; [now left|].
        right. exists g'. auto.
Qed.

(** The pass keeps the groups in increasing key order. *)
Lemma accumulate_increasing (k : K) (w : W) (groups : list (K * W)) :
  increasing cmp groups -> increasing cmp (accumulate cmp k w groups).
Proof.
  unfold increasing.
  induction 1 as [|[k' s] t Ht IH Hall]; simpl.
  - repeat constructor.
  - destruct (cmp k k') eqn:Hc.
    + apply cmp_eq in Hc. subst k'. now constructor.
    + constructor; [now constructor|].
      constructor; [exact Hc|].
      rewrite Forall_forall in Hall |- *. intros g Hg. simpl.
      eapply cmp_trans; [exact Hc|]. now apply (Hall g).
    + constructor; [exact IH|].
      rewrite Forall_forall in Hall |- *. intros g Hg. simpl.
      destruct (accumulate_keys _ _ _ _ Hg) as [->|(g' & Hg' & <-)].
      * now apply cmp_Gt_Lt.
      * now apply (Hall g').
Qed.

(** What the pass does to the accumulator of every key. *)
Lemma assoc_accumulate (q k : K) (w : W) (groups : list (K * W)) :
  increasing cmp groups ->
  assoc cmp q (accumulate cmp k w groups) =
    if is_Eq (cmp q k)
    then Some (wadd (match assoc cmp q groups with Some s => s | None => wzero end) w)
    else assoc cmp q groups.
Proof.
  unfold increasing.
  induction 1 as [|[k' s] t Ht IH Hall]; simpl.
  - rewrite assoc_cons. reflexivity.
  - destruct (cmp k k') eqn:Hc.
    + apply cmp_eq in Hc. subst k'. rewrite !assoc_cons.
      now destruct (is_Eq (cmp q k)).
    + rewrite !assoc_cons.
      destruct (is_Eq (cmp q k)) eqn:Hq; [|reflexivity].
      apply is_Eq_true in Hq. subst q. rewrite Hc. simpl.
      rewrite assoc_below; [reflexivity|].
      rewrite Forall_forall in Hall |- *. intros g Hg.
      eapply cmp_trans; [exact Hc|]. now apply (Hall g).
    + rewrite !assoc_cons, IH.
      destruct (is_Eq (cmp q k')) eqn:Hq'; [|reflexivity].
      apply is_Eq_true in Hq'. subst q.
      rewrite (cmp_Gt_Lt _ _ Hc). reflexivity.
Qed.

Section Rows.

Context {R : Type} (key : R -> K) (val : R -> W).

Let step (groups : list (K * W)) (r : R) : list (K * W) :=
  accumulate cmp (key r) (val r) groups.

Lemma pass_increasing (rows : list R) (groups : list (K * W)) :
  increasing cmp groups -> increasing cmp (fold_left step rows groups).
Proof.
  revert groups. induction rows as [|r rows IH]; simpl; intros groups H; [exact H|].
  apply IH. now apply accumulate_increasing.
Qed.

Lemma assoc_pass (q : K) (rows : list R) (groups : list (K * W)) :
  increasing cmp groups ->
  assoc cmp q (fold_left step rows groups) =
    match members cmp key q rows with
    | [] => assoc cmp q groups
    | ms => Some (fold_left wadd (map val ms)
                    (match assoc cmp q groups with Some s => s | None => wzero end))
    end.
Proof.
  revert groups. induction rows as [|r rows IH]; simpl; intros groups H; [reflexivity|].
  rewrite IH by now apply accumulate_increasing.
  unfold step at 1 2. rewrite assoc_accumulate by exact H.
  destruct (is_Eq (cmp q (key r))); simpl; [|reflexivity].
  now destruct (members cmp key q rows).
Qed.

(** The groups come out in increasing key order. *)
Lemma groupby_sum_increasing (rows : list R) :
  increasing cmp (groupby_sum cmp key val rows).
Proof. apply pass_increasing. constructor. Qed.

(** A key has a group exactly when some row has it, and the group holds the
    sum of those rows. *)
Lemma assoc_groupby_sum (q : K) (rows : list R) :
  assoc cmp q (groupby_sum cmp key val rows) =
    match members cmp key q rows with
    | [] => None
    | ms => Some (sum_weights (map val ms))
    end.
Proof. unfold groupby_sum. rewrite assoc_pass by constructor. reflexivity. Qed.

End Rows.

Lemma increasing_In_assoc (groups : list (K * W)) (k : K) (w : W) :
  increasing cmp groups -> (In (k, w) groups <-> assoc cmp k groups = Some w).
Proof.
  unfold increasing.
  induction 1 as [|[k' s] t Ht IH Hall]; simpl.
  - split; [intros []|discriminate].
  - rewrite assoc_cons. rewrite Forall_forall in Hall.
    destruct (is_Eq (cmp k k')) eqn:Hk.
    + apply is_Eq_true in Hk. subst k'. split.
      * intros [[= ->]|Hin]; [reflexivity|].
        specialize (Hall _ Hin). simpl in Hall. rewrite cmp_refl in Hall. discriminate.
      * intros [= ->]. now left.
    + rewrite <- IH. split; [|now right].
      intros [[= -> ->]|Hin]; [|exact Hin].
      rewrite cmp_refl in Hk. discriminate.
Qed.

Lemma increasing_NoDup (groups : list (K * W)) :
  increasing cmp groups -> NoDup (map fst groups).
Proof.
  unfold increasing.
  induction 1 as [|[k s] t Ht IH Hall]; simpl; constructor; [|exact IH].
  rewrite Forall_forall in Hall. intros Hin.
  apply in_map_iff in Hin. destruct Hin as (g & Hg & Hin).
  specialize (Hall _ Hin). simpl in Hall. rewrite Hg, cmp_refl in Hall. discriminate.
Qed.

End GroupByFacts.

(** ** Sums under exact arithmetic *)

Section Sums.

Context {W : Type} {WA : Additive W} {EX : ExactNum W}.

Lemma wadd_zero_r (a : W) : wadd a wzero = a.
Proof. rewrite wadd_comm. apply wadd_zero_l. Qed.

Lemma fold_wadd_start (ws : list W) (a b : W) :
  fold_left wadd ws (wadd a b) = wadd a (fold_left wadd ws b).
Proof.
  revert b. induction ws as [|w ws IH]; simpl; intros b; [reflexivity|].
  now rewrite <- wadd_assoc, IH.
Qed.

Lemma sum_weights_cons (w : W) (ws : list W) :
  sum_weights (w :: ws) = wadd w (sum_weights ws).
Proof.
  unfold sum_weights. simpl.
  now rewrite (wadd_comm wzero w), fold_wadd_start.
Qed.

Lemma sum_weights_app (l1 l2 : list W) :
  sum_weights (l1 ++ l2) = wadd (sum_weights l1) (sum_weights l2).
Proof.
  induction l1 as [|w l1 IH]; simpl.
  - change (sum_weights []) with (wzero : W). now rewrite wadd_zero_l.
  - now rewrite !sum_weights_cons, IH, wadd_assoc.
Qed.

Lemma sum_weights_flat_map {A : Type} (f : A -> list W) (l : list A) :
  sum_weights (flat_map f l) = sum_weights (map (fun a => sum_weights (f a)) l).
Proof.
  induction l as [|a l IH]; simpl; [reflexivity|].
  now rewrite sum_weights_app, sum_weights_cons, IH.
Qed.

Context {R : Type} (val : R -> W).

(** Two selections that exclude each other split the sum of their union. *)
Lemma sum_filter_disjoint (p q : R -> bool) (rows : list R) :
  (forall r, p r = true -> q r = false) ->
  sum_weights (map val (filter (fun r => p r || q r)%bool rows)) =
    wadd (sum_weights (map val (filter p rows)))
         (sum_weights (map val (filter q rows))).
Proof.
  intros Hpq. induction rows as [|r rows IH]; simpl.
  - change (sum_weights []) with (wzero : W). now rewrite wadd_zero_l.
  - destruct (p r) eqn:Hp; simpl.
    + rewrite (Hpq _ Hp). simpl. now rewrite !sum_weights_cons, IH, wadd_assoc.
    + destruct (q r); simpl; [|exact IH].
      rewrite !sum_weights_cons, IH, !wadd_assoc.
      f_equal. apply wadd_comm.
Qed.

(** Regrouping: the sums of selections that exclude one another add up to
    the sum of the rows some selection takes. *)
Lemma sum_regroup (ps : list (R -> bool)) (rows : list R) :
  ForallOrdPairs (fun p q => forall r, p r = true -> q r = false) ps ->
  sum_weights (map (fun p => sum_weights (map val (filter p rows))) ps) =
    sum_weights (map val (filter (fun r => existsb (fun p => p r) ps) rows)).
Proof.
  induction 1 as [|p ps Hp Hps IH]; simpl.
  - clear. induction rows as [|r rows IH]; simpl; [reflexivity|exact IH].
  - rewrite sum_weights_cons, IH.
    symmetry. apply (sum_filter_disjoint p (fun r => existsb (fun p0 => p0 r) ps)).
    intros r Hr. destruct (existsb (fun p0 => p0 r) ps) eqn:He; [|reflexivity].
    apply existsb_exists in He. destruct He as (q & Hq & Hqr).
    rewrite Forall_forall in Hp. rewrite (Hp q Hq r Hr) in Hqr. discriminate.
Qed.

End Sums.

(** ** [range] and [from_product] *)

Lemma range_length (lo hi : Z) : List.length (range lo hi) = Z.to_nat (hi - lo).
Proof. unfold range. now rewrite length_map, length_seq. Qed.

Lemma In_range (lo hi y : Z) : In y (range lo hi) <-> lo <= y < hi.
Proof.
  unfold range. rewrite in_map_iff. split.
  - intros (i & <- & Hi). apply in_seq in Hi. lia.
  - intros H. exists (Z.to_nat (y - lo)). split; [lia|].
    apply in_seq. lia.
Qed.


Lemma range_NoDup (lo hi : Z) : NoDup (range lo hi).
Proof.
  unfold range. apply Injective_map_NoDup; [|apply seq_NoDup].
  intros i j. lia.
Qed.

Lemma range_empty (lo hi : Z) : hi <= lo -> range lo hi = [].
Proof.
  intros H. unfold range. replace (Z.to_nat (hi - lo)) with 0%nat by lia. reflexivity.
Qed.

Section Product.

Context {A B : Type}.

Lemma from_product_length (l1 : list A) (l2 : list B) :
  List.length (from_product l1 l2) = (List.length l1 * List.length l2)%nat.
Proof.
  unfold from_product. induction l1 as [|a l1 IH]; simpl; [reflexivity|].
  now rewrite length_app, length_map, IH.
Qed.

Lemma In_from_product (l1 : list A) (l2 : list B) (a : A) (b : B) :
  In (a, b) (from_product l1 l2) <-> In a l1 /\ In b l2.
Proof.
  unfold from_product. rewrite in_flat_map. split.
  - intros (a' & Ha & Hb). apply in_map_iff in Hb.
    destruct Hb as (b' & [= -> ->] & Hb). auto.
  - intros [Ha Hb]. exists a. split; [exact Ha|]. now apply in_map.
Qed.

Lemma from_product_NoDup (l1 : list A) (l2 : list B) :
  NoDup l1 -> NoDup l2 -> NoDup (from_product l1 l2).
Proof.
  intros H1 H2. unfold from_product.
  induction H1 as [|a l1 Ha H1 IH]; simpl; [constructor|].
  apply NoDup_app; repeat split.
  - apply Injective_map_NoDup; [|exact H2]. now intros b b' [= ->].
  - exact IH.
  - intros [a' b] Hin Hin'. apply in_map_iff in Hin. destruct Hin as (b' & [= -> ->] & _).
    apply (In_from_product l1 l2) in Hin'. now apply Ha.
Qed.


End Product.

(** ** The Aggregate table, label by label *)

Lemma bool_eq_iff (a b : bool) : (a = true <-> b = true) -> a = b.
Proof. destruct a, b; intuition congruence. Qed.

Section AggregatorFacts.

Context {W : Type} {WA : Additive W}.

Implicit Types (df : list (CleanRecord W)) (l : label) (r : CleanRecord W).

Lemma has_label_true l r : has_label l r = true <-> key r = l.
Proof.
  unfold has_label, key. rewrite andb_true_iff, Z.eqb_eq, String.eqb_eq.
  destruct l as [y c]. simpl. split; [intros [-> ->]|intros [= -> ->]]; auto.
Qed.

Lemma has_label_compare l r : is_Eq (label_compare l (key r)) = has_label l r.
Proof.
  apply bool_eq_iff. rewrite has_label_true, (is_Eq_true label_compare).
  split; congruence.
Qed.

Lemma members_has_label l df : members label_compare key l df = filter (has_label l) df.
Proof. unfold members. apply filter_ext. intros r. apply has_label_compare. Qed.

Lemma find_df_grouped l df :
  find (has_label l) (df_grouped df) =
    option_map (fun w => mkRow (snd l) w (fst l))
      (assoc label_compare l (groupby_sum label_compare key Weight df)).
Proof.
  unfold df_grouped, assoc.
  induction (groupby_sum label_compare key Weight df) as [|[[y c] w] t IH]; simpl;
    [reflexivity|].
  rewrite <- (has_label_compare l (mkRow c w y)). unfold key at 1. simpl.
  destruct (is_Eq (label_compare l (y, c))) eqn:He; [|exact IH].
  apply (is_Eq_true label_compare) in He. subst l. reflexivity.
Qed.

(** The labels of [df_grouped] do not repeat: the frame [reindex] is given
    has a unique index. *)
Lemma df_grouped_labels_NoDup df : NoDup (map key (df_grouped df)).
Proof.
  unfold df_grouped. rewrite map_map.
  rewrite map_ext with (g := fst) by (now intros [[y c] w]).
  apply (increasing_NoDup label_compare), groupby_sum_increasing. exact _.
Qed.

(** A row of [df_grouped] carries the label of some clean record. *)
Lemma df_grouped_label_iff l df :
  In l (map key (df_grouped df)) <-> In l (map key df).
Proof.
  unfold df_grouped. rewrite map_map.
  rewrite map_ext with (g := fst) by (now intros [[y c] w]).
  pose proof (groupby_sum_increasing label_compare key Weight df) as Hinc.
  pose proof (assoc_groupby_sum label_compare key Weight l df) as Has.
  rewrite members_has_label in Has.
  rewrite !in_map_iff. split.
  - intros ([l' w] & <- & Hin). simpl in *.
    apply (increasing_In_assoc label_compare _ _ _ Hinc) in Hin.
    rewrite Hin in Has.
    destruct (filter (has_label l') df) as [|r rs] eqn:Hf; [discriminate|].
    assert (Hr : In r (filter (has_label l') df)) by (rewrite Hf; now left).
    apply filter_In in Hr. destruct Hr as [Hr Hl]. apply has_label_true in Hl.
    now exists r.
  - intros (r & <- & Hin).
    assert (Hr : In r (filter (has_label (key r)) df)).
    { apply filter_In. split; [exact Hin|]. now apply has_label_true. }
    destruct (filter (has_label (key r)) df) as [|r' rs]; [destruct Hr|].
    apply (increasing_In_assoc label_compare _ _ _ Hinc) in Has.
    eexists. split; [|exact Has]. reflexivity.
Qed.

(** Every row of the Aggregate table is the cell of its label: the sum of
    the clean records of that label, which is zero when there is none. *)
Lemma filtered_df_cells df (y0 y1 : Z) (C : list string) :
  filtered_df df y0 y1 C = map (cell df) (full_index y0 y1 C).
Proof.
  unfold filtered_df, reindex. apply map_ext. intros l.
  rewrite find_df_grouped, assoc_groupby_sum, members_has_label by exact _.
  unfold cell. destruct (filter (has_label l) df); reflexivity.
Qed.

Lemma key_cell df l : key (cell df l) = l.
Proof. now destruct l. Qed.

Lemma filtered_df_labels df (y0 y1 : Z) (C : list string) :
  map key (filtered_df df y0 y1 C) = full_index y0 y1 C.
Proof.
  rewrite filtered_df_cells, map_map.
  rewrite map_ext with (g := fun l => l) by apply key_cell.
  apply map_id.
Qed.

End AggregatorFacts.

(** ** The Aggregate table: completeness, zero fill, empty cases, order *)

Section TableTheorems.

Context {W : Type} {WA : Additive W}.

Implicit Types (df : list (CleanRecord W)) (C : list string).

Lemma In_full_index (y0 y1 : Z) C (y : Z) (c : string) :
  In (y, c) (full_index y0 y1 C) <-> y0 <= y <= y1 /\ In c C.
Proof. unfold full_index. rewrite In_from_product, In_range. intuition lia. Qed.

(** C1. For every list of clean records, every year range [y0, y1] with
    y0 <= y1 and every set C of selected categories (a list without
    repetition), the Aggregate table has exactly (y1 - y0 + 1) * |C| rows,
    their (Year, Category) labels are pairwise distinct, and the labels are
    exactly the pairs of [y0, y1] x C. *)
Theorem aggregate_table_complete df (y0 y1 : Z) C :
  y0 <= y1 -> NoDup C ->
  List.length (filtered_df df y0 y1 C) = (Z.to_nat (y1 - y0 + 1) * List.length C)%nat /\
  NoDup (map key (filtered_df df y0 y1 C)) /\
  (forall y c, In (y, c) (map key (filtered_df df y0 y1 C)) <->
               y0 <= y <= y1 /\ In c C).
Proof.
  intros Hy HC. rewrite filtered_df_labels. split; [|split].
  - rewrite <- (length_map key (filtered_df df y0 y1 C)), filtered_df_labels.
    unfold full_index.
    rewrite from_product_length, range_length. f_equal. lia.
  - apply from_product_NoDup; [apply range_NoDup|exact HC].
  - intros y c. apply In_full_index.
Qed.

(** C2. A pair (y, c) of the selected grid that no clean record has appears
    in the Aggregate table as a row of weight zero. *)
Theorem zero_fill df (y0 y1 : Z) C (y : Z) (c : string) :
  y0 <= y <= y1 -> In c C ->
  (forall r, In r df -> ~ (Year r = y /\ Category r = c)) ->
  In (mkRow c wzero y) (filtered_df df y0 y1 C).
Proof.
  intros Hy Hc Hnone. rewrite filtered_df_cells. apply in_map_iff.
  exists (y, c). split; [|now apply In_full_index].
  unfold cell. simpl.
  replace (filter (has_label (y, c)) df) with (@nil (CleanRecord W)); [reflexivity|].
  symmetry. induction df as [|r df IH]; simpl; [reflexivity|].
  destruct (has_label (y, c) r) eqn:Hl.
  - apply has_label_true in Hl. exfalso. apply (Hnone r); [now left|].
    unfold key in Hl. now inversion Hl.
  - apply IH. intros r' Hr'. apply Hnone. now right.
Qed.

(** C7. With no category selected the Aggregate table has no row, for any
    records and any year range, and each of the five views is given an empty
    dataset. *)
Theorem empty_selection df (y0 y1 : Z) :
  filtered_df df y0 y1 [] = [] /\
  dashboard df y0 y1 [] = mkViews [] [] [] [] [].
Proof.
  assert (H : filtered_df df y0 y1 [] = []).
  { rewrite filtered_df_cells. unfold full_index, from_product.
    induction (range y0 (y1 + 1)) as [|y ys IH]; simpl; [reflexivity|exact IH]. }
  split; [exact H|]. unfold dashboard. now rewrite H.
Qed.

(** C8. A year range with minYear > maxYear gives an Aggregate table without
    rows, whatever the (non-empty) selection of categories. *)
Theorem inverted_range_empty df (y0 y1 : Z) C :
  y1 < y0 -> C <> [] -> filtered_df df y0 y1 C = [].
Proof.
  intros Hy _. rewrite filtered_df_cells. unfold full_index.
  rewrite range_empty by lia. reflexivity.
Qed.


End TableTheorems.

(** ** [categories_unique] *)

Lemma In_unique_from (seen l : list string) (x : string) :
  In x (unique_from seen l) <-> In x l /\ ~ In x seen.
Proof.
  revert seen. induction l as [|a l IH]; intros seen; simpl; [tauto|].
  destruct (existsb (String.eqb a) seen) eqn:He.
  - apply existsb_exists in He. destruct He as (b & Hb & Hab).
    apply String.eqb_eq in Hab. subst b. rewrite IH.
    split; [tauto|]. intros [[->|Hx] Hn]; tauto.
  - assert (Ha : ~ In a seen).
    { intros Hin. apply Bool.not_true_iff_false in He. apply He.
      apply existsb_exists. exists a. split; [exact Hin|apply String.eqb_refl]. }
    simpl. rewrite IH. simpl. split.
    + intros [->|[Hx Hn]]; [tauto|]. split; [tauto|]. intros Hs. apply Hn. now right.
    + intros [[->|Hx] Hn]; [now left|].
      destruct (String.eqb_spec a x) as [->|Hne]; [now left|].
      right. split; [exact Hx|]. intros [Heq|Hs]; [now apply Hne|now apply Hn].
Qed.

Lemma unique_from_NoDup (seen l : list string) : NoDup (unique_from seen l).
Proof.
  revert seen. induction l as [|a l IH]; intros seen; simpl; [constructor|].
  destruct (existsb (String.eqb a) seen); [apply IH|].
  constructor; [|apply IH].
  rewrite In_unique_from. intros [_ Hn]. apply Hn. now left.
Qed.

Lemma In_insert_sorted (x y : string) (l : list string) :
  In x (insert_sorted y l) <-> x = y \/ In x l.
Proof.
  induction l as [|a l IH]; simpl; [intuition congruence|].
  destruct (String.leb y a); simpl; [intuition congruence|].
  rewrite IH. intuition congruence.
Qed.

Lemma insert_sorted_NoDup (y : string) (l : list string) :
  NoDup l -> ~ In y l -> NoDup (insert_sorted y l).
Proof.
  induction 1 as [|a l Ha Hl IH]; simpl; intros Hy.
  - constructor; [tauto|constructor].
  - destruct (String.leb y a).
    + constructor; [exact Hy|now constructor].
    + constructor; [|apply IH; tauto].
      rewrite In_insert_sorted. intros [->|Hin]; tauto.
Qed.

Lemma sorted_spec (l acc : list string) :
  NoDup l -> NoDup acc -> (forall x, In x l -> ~ In x acc) ->
  NoDup (fold_left (fun a x => insert_sorted x a) l acc) /\
  (forall x, In x (fold_left (fun a x => insert_sorted x a) l acc) <-> In x l \/ In x acc).
Proof.
  intros Hl. revert acc. induction Hl as [|a l Ha Hl IH]; intros acc Hacc Hd; simpl.
  - split; [exact Hacc|tauto].
  - destruct (IH (insert_sorted a acc)) as [Hn Hin].
    + apply insert_sorted_NoDup; [exact Hacc|]. apply Hd. now left.
    + intros x Hx. rewrite In_insert_sorted. intros [->|Hxa]; [tauto|].
      apply (Hd x); [now right|exact Hxa].
    + split; [exact Hn|]. intros x. rewrite Hin, In_insert_sorted. intuition congruence.
Qed.

Section CategoriesUnique.

Context {W : Type} {WA : Additive W}.

Lemma categories_unique_NoDup (df : list (CleanRecord W)) : NoDup (categories_unique df).
Proof.
  unfold categories_unique, sorted.
  apply sorted_spec; [apply unique_from_NoDup|constructor|auto].
Qed.

(** The options of the category control are the categories of the clean
    records. *)
Lemma In_categories_unique (df : list (CleanRecord W)) (c : string) :
  In c (categories_unique df) <-> exists r, In r df /\ Category r = c.
Proof.
  unfold categories_unique, sorted.
  destruct (sorted_spec (unique (map Category (df_grouped df))) [])
    as [_ Hin]; [apply unique_from_NoDup|constructor|auto|].
  rewrite Hin. unfold unique. rewrite In_unique_from. simpl. split.
  - intros [[Hc _]|[]]. apply in_map_iff in Hc. destruct Hc as (g & <- & Hg).
    assert (Hk : In (key g) (map key df)).
    { apply df_grouped_label_iff. now apply in_map. }
    apply in_map_iff in Hk. destruct Hk as (r & Hr & Hin').
    exists r. split; [exact Hin'|]. unfold key in Hr. now inversion Hr.
  - intros (r & Hr & <-). left. split; [|tauto].
    assert (Hk : In (key r) (map key (df_grouped df))).
    { apply df_grouped_label_iff. now apply in_map. }
    apply in_map_iff in Hk. destruct Hk as (g & Hg & Hin').
    apply in_map_iff. exists g. split; [|exact Hin']. unfold key in Hg. now inversion Hg.
Qed.

End CategoriesUnique.

(** ** Conservation of weight *)

#[export] Instance Z_ExactNum : ExactNum Z.
Proof. split; simpl; intros; lia. Qed.

Section Conservation.

Context {W : Type} {WA : Additive W}.

Implicit Types (df : list (CleanRecord W)) (C : list string).

Lemma in_category_true (c : string) (r : CleanRecord W) :
  in_category c r = true <-> Category r = c.
Proof. apply String.eqb_eq. Qed.

Lemma in_years_true (y0 y1 : Z) (r : CleanRecord W) :
  in_years y0 y1 r = true <-> y0 <= Year r <= y1.
Proof. unfold in_years. rewrite andb_true_iff, !Z.leb_le. tauto. Qed.

Lemma existsb_map_apply {A R : Type} (f : A -> R -> bool) (l : list A) (r : R) :
  existsb (fun p => p r) (map f l) = existsb (fun a => f a r) l.
Proof. induction l as [|a l IH]; simpl; [reflexivity|now rewrite IH]. Qed.

(** Distinct labels select rows that exclude one another. *)
Lemma labels_exclusive (ls : list (Z * string)) :
  NoDup ls ->
  ForallOrdPairs (fun p q : CleanRecord W -> bool => forall r, p r = true -> q r = false)
    (map has_label ls).
Proof.
  induction 1 as [|l ls Hl Hls IH]; simpl; constructor; [|exact IH].
  apply Forall_forall. intros q Hq r Hr.
  apply in_map_iff in Hq. destruct Hq as (l' & <- & Hl').
  apply has_label_true in Hr.
  destruct (has_label l' r) eqn:He; [|reflexivity].
  apply has_label_true in He. congruence.
Qed.

(** In the grid of a selection without repetition, the rows of category [c]
    are its cells, one per year. *)
Lemma filter_category_row df (c : string) C (y : Z) :
  NoDup C -> In c C ->
  filter (in_category c) (map (cell df) (map (pair y) C)) = [cell df (y, c)].
Proof.
  induction 1 as [|c' C Hc' HC IH]; simpl; [intros []|].
  unfold in_category at 1. simpl.
  destruct (String.eqb_spec c' c) as [->|Hne].
  - intros _. f_equal.
    clear IH HC. induction C as [|d C IH]; simpl; [reflexivity|].
    unfold in_category at 1. simpl.
    destruct (String.eqb_spec d c) as [->|_]; [|apply IH].
    + exfalso. apply Hc'. now left.
    + intros Hin. apply Hc'. now right.
  - intros [Heq|Hin]; [congruence|]. now apply IH.
Qed.

Lemma filter_category_table df (c : string) C (ys : list Z) :
  NoDup C -> In c C ->
  filter (in_category c) (map (cell df) (from_product ys C))
    = map (fun y => cell df (y, c)) ys.
Proof.
  intros HC Hc. unfold from_product.
  induction ys as [|y ys IH]; simpl; [reflexivity|].
  now rewrite map_app, filter_app, IH, filter_category_row.
Qed.

(** The cells of distinct labels add up to the sum of the clean records
    that have one of the labels. *)
Lemma sum_cells {EXACT : ExactNum W} df (ls : list (Z * string)) :
  NoDup ls ->
  sum_weights (map Weight (map (cell df) ls)) =
    sum_weights (map Weight (filter (fun r => existsb (fun l => has_label l r) ls) df)).
Proof.
  intros Hls.
  pose proof (sum_regroup (@Weight string W Z) (map has_label ls) df
                (labels_exclusive ls Hls)) as H.
  rewrite map_map in H. rewrite map_map.
  transitivity (sum_weights (map Weight
    (filter (fun r => existsb (fun p => p r) (map has_label ls)) df))); [exact H|].
  f_equal. f_equal. apply filter_ext. intros r. apply existsb_map_apply.
Qed.

(** C3, for weights that add exactly. For every selected category c (of a
    selection without repetition)
    and every year range, the weights of the Aggregate rows of category c add
    up to the weights of the clean records of category c whose year is in
    the range.  When the selection is all categories ([categories_unique]),
    the whole table adds up to the weights of the clean records whose year is
    in the range.  Weights are added exactly ([ExactNum]). *)
Theorem weight_conservation {EXACT : ExactNum W} df (y0 y1 : Z) :
  (forall C c, NoDup C -> In c C ->
     sum_weights (map Weight (filter (in_category c) (filtered_df df y0 y1 C))) =
     sum_weights (map Weight
       (filter (fun r => in_category c r && in_years y0 y1 r)%bool df))) /\
  sum_weights (map Weight (filtered_df df y0 y1 (categories_unique df))) =
    sum_weights (map Weight (filter (in_years y0 y1) df)).
Proof.
  split.
  - intros C c HC Hc. rewrite filtered_df_cells. unfold full_index.
    rewrite filter_category_table by assumption.
    rewrite <- (map_map (fun y => (y, c)) (cell df)).
    rewrite sum_cells.
    + f_equal. f_equal. apply filter_ext. intros r.
      apply bool_eq_iff. rewrite existsb_exists, andb_true_iff.
      rewrite in_category_true, in_years_true. split.
      * intros (l & Hl & Hr). apply in_map_iff in Hl. destruct Hl as (y & <- & Hy).
        apply has_label_true in Hr. unfold key in Hr. inversion Hr; subst.
        apply In_range in Hy. split; [reflexivity|lia].
      * intros [Hcat Hy]. exists (Year r, c). split.
        -- apply (in_map (fun y => (y, c))). apply In_range. lia.
        -- apply has_label_true. unfold key. now rewrite Hcat.
    + apply Injective_map_NoDup; [|apply range_NoDup]. now intros y y' [= ->].
  - rewrite filtered_df_cells, sum_cells.
    + f_equal. f_equal. apply filter_ext_in. intros r Hr.
      apply bool_eq_iff. rewrite existsb_exists, in_years_true. split.
      * intros ([y c] & Hl & Hk). apply In_full_index in Hl.
        apply has_label_true in Hk. unfold key in Hk. inversion Hk; subst. tauto.
      * intros Hy. exists (key r). split; [|now apply has_label_true].
        unfold key. apply In_full_index. split; [exact Hy|].
        apply In_categories_unique. now exists r.
    + apply from_product_NoDup; [apply range_NoDup|apply categories_unique_NoDup].
Qed.


End Conservation.

(** ** The Loader *)

Lemma lstrip_spec (s : string) :
  exists l, s = l ++ PyStr.lstrip s /\ all_space l = true /\
            starts_with_space (PyStr.lstrip s) = false.
Proof.
  induction s as [|c s (l & Hs & Hl & Hst)]; simpl.
  - now exists "".
  - destruct (PyStr.isspace c) eqn:Hc.
    + exists (String c l). simpl. rewrite Hc, Hl. now rewrite <- Hs.
    + exists "". simpl. now rewrite Hc.
Qed.

Lemma rstrip_spec (s : string) :
  exists r, s = PyStr.rstrip s ++ r /\ all_space r = true /\
            ends_with_space (PyStr.rstrip s) = false /\
            (starts_with_space s = false -> starts_with_space (PyStr.rstrip s) = false).
Proof.
  induction s as [|c s (r & Hs & Hr & He & _)]; simpl.
  - now exists "".
  - destruct (PyStr.rstrip s) as [|c' t] eqn:Ht.
    + destruct (PyStr.isspace c) eqn:Hc.
      * exists (String c r). simpl in *. rewrite Hc, Hr. subst s. auto.
      * exists r. simpl in *. rewrite Hc. subst s. auto.
    + exists r. simpl in *. rewrite <- Hs. repeat split; auto.
Qed.

(** [strip] takes whitespace, and nothing else, off both ends. *)
Lemma strip_spec (s : string) :
  exists l r, s = l ++ PyStr.strip s ++ r /\
              all_space l = true /\ all_space r = true /\
              starts_with_space (PyStr.strip s) = false /\
              ends_with_space (PyStr.strip s) = false.
Proof.
  destruct (lstrip_spec s) as (l & Hs & Hl & Hst).
  destruct (rstrip_spec (PyStr.lstrip s)) as (r & Hs' & Hr & He & Hkeep).
  exists l, r. unfold PyStr.strip. rewrite <- Hs'. repeat split; auto.
Qed.

Lemma ascii_cases (P : ascii -> Prop) :
  (forall b0 b1 b2 b3 b4 b5 b6 b7, P (Ascii b0 b1 b2 b3 b4 b5 b6 b7)) -> forall c, P c.
Proof. intros H []. apply H. Qed.

Lemma upper_cased (c : ascii) :
  PyStr.islower (PyStr.upper c) = false /\
  PyStr.isupper (PyStr.upper c) = PyStr.iscased c.
Proof.
  revert c. apply ascii_cases.
  intros [] [] [] [] [] [] [] []; vm_compute; split; reflexivity.
Qed.

Lemma lower_cased (c : ascii) :
  PyStr.isupper (PyStr.lower c) = false /\
  PyStr.islower (PyStr.lower c) = PyStr.iscased c.
Proof.
  revert c. apply ascii_cases.
  intros [] [] [] [] [] [] [] []; vm_compute; split; reflexivity.
Qed.

Lemma upper_lower_keep_cased (c : ascii) :
  PyStr.iscased (PyStr.upper c) = PyStr.iscased c /\
  PyStr.iscased (PyStr.lower c) = PyStr.iscased c.
Proof.
  revert c. apply ascii_cases.
  intros [] [] [] [] [] [] [] []; vm_compute; split; reflexivity.
Qed.

(** [title] produces title-cased text. *)
Lemma title_from_titlecased (b : bool) (s : string) :
  titlecased_from b (PyStr.title_from b s) = true.
Proof.
  revert b. induction s as [|c s IH]; intros b; simpl; [reflexivity|].
  destruct (upper_cased c) as [Hul Huu], (lower_cased c) as [Hlu Hll].
  destruct (upper_lower_keep_cased c) as [Hcu Hcl].
  destruct b.
  - rewrite Hlu, Hll, Hcl, IH. now destruct (PyStr.iscased c).
  - rewrite Huu, Hul, Hcu, IH. now destruct (PyStr.iscased c).
Qed.

(** C6. The category normalization takes whitespace off both ends and puts
    the text in title case; the texts "paper", " Paper" and "PAPER " all
    become "Paper". *)
Theorem category_normalization :
  (forall s, exists t, str_strip_title (Str s) = Some t /\
     t = PyStr.title (PyStr.strip s) /\
     titlecased_from false t = true /\
     exists l r, s = l ++ PyStr.strip s ++ r /\
       all_space l = true /\ all_space r = true /\
       starts_with_space (PyStr.strip s) = false /\
       ends_with_space (PyStr.strip s) = false) /\
  str_strip_title (Str "paper") = Some "Paper" /\
  str_strip_title (Str " Paper") = Some "Paper" /\
  str_strip_title (Str "PAPER ") = Some "Paper".
Proof.
  split; [|repeat split].
  intros s. exists (PyStr.title (PyStr.strip s)). repeat split.
  - apply title_from_titlecased.
  - apply strip_spec.
Qed.

Section LoaderFacts.

Variable read_number : string -> number.

Lemma float_to_int64_in_range (x : float64) : in_int64 (float_to_int64 x) = true.
Proof.
  unfold float_to_int64. destruct (in_int64 (trunc x)) eqn:H; [exact H|reflexivity].
Qed.

Lemma wrap_int64_in_range (z : Z) : in_int64 (wrap_int64 z) = true.
Proof.
  unfold in_int64, wrap_int64, int64_min, int64_max.
  pose proof (Z.mod_pos_bound (z + 2 ^ 63) (2 ^ 64) ltac:(lia)) as H.
  apply andb_true_iff. rewrite !Z.leb_le.
  change (2 ^ 64) with (2 * 2 ^ 63) in *. lia.
Qed.

(** The cast leaves an int64 as it is. *)
Lemma wrap_int64_fixed (z : Z) : in_int64 z = true -> wrap_int64 z = z.
Proof.
  unfold in_int64, wrap_int64, int64_min, int64_max.
  rewrite andb_true_iff, !Z.leb_le. intros H.
  rewrite Z.mod_small; [lia|]. change (2 ^ 64) with (2 * 2 ^ 63). lia.
Qed.

(** A cast that succeeds gives an int64. *)
Lemma astype_int_in_range (v : scalar) (y : Z) :
  astype_int v = OK y -> in_int64 y = true.
Proof.
  destruct v as [s|[z|x]]; simpl.
  - destruct (PyStr.int s) as [z|]; [|discriminate].
    destruct (in_int64 z) eqn:Hz; [|discriminate]. now intros [= <-].
  - intros [= <-]. apply wrap_int64_in_range.
  - destruct (is_finite x); [|discriminate].
    intros [= <-]. apply float_to_int64_in_range.
Qed.

(** The rows that pass [dropna] are the complete rows, cast one by one. *)
Lemma load_rows_cleaned (col : list scalar) (df : list RawRecord)
  (recs : list (CleanRecord number)) :
  mapM (fun r => y <- astype_int (Year r) ;; OK (mkRow (Category r) (Weight r) y))
    (dropna
       (map (fun r => mkRow (Category r) (to_numeric read_number col (Weight r)) (Year r))
          (map (fun r => mkRow (str_strip_title (Category r)) (Weight r) (Year r)) df)))
    = OK recs ->
  Forall2 (cleaned read_number col) (filter (complete read_number col) df) recs.
Proof.
  revert recs. induction df as [|[c w y] df IH]; intros recs; simpl.
  - intros [= <-]. constructor.
  - unfold complete at 1. simpl.
    destruct c as [s|n]; simpl; [|apply IH].
    destruct (isna_number (to_numeric read_number col w)); simpl; [apply IH|].
    destruct (isna y); simpl; [apply IH|].
    destruct (astype_int y) as [z|e] eqn:Hy; simpl; [|discriminate].
    match goal with |- context [mapM ?f ?l] => destruct (mapM f l) as [rs|e] end;
      simpl; [|discriminate].
    intros [= <-]. constructor; [|now apply IH].
    unfold cleaned. simpl. auto.
Qed.

(** Complete rows give records with a weight and an int64 year. *)
Lemma cleaned_rows_ok (col : list scalar) (raws : list RawRecord)
  (recs : list (CleanRecord number)) :
  Forall (fun r => complete read_number col r = true) raws ->
  Forall2 (cleaned read_number col) raws recs ->
  Forall (fun rec => isna_number (Weight rec) = false /\ in_int64 (Year rec) = true) recs.
Proof.
  intros Hcomp Hcl. revert Hcomp.
  induction Hcl as [|raw rec raws recs (Hc & Hw & Hy) _ IH]; intros Hcomp;
    [constructor|].
  inversion Hcomp as [|? ? Hcomp1 Hcomp']; subst.
  constructor; [|now apply IH]. split.
  - rewrite Hw. unfold complete in Hcomp1.
    rewrite !andb_true_iff, !negb_true_iff in Hcomp1. tauto.
  - eapply astype_int_in_range; eauto.
Qed.

End LoaderFacts.

Lemma mapM_total {A B : Type} (f : A -> result B) (l : list A) :
  Forall (fun a => exists b, f a = OK b) l -> exists bs, mapM f l = OK bs.
Proof.
  induction 1 as [|a l (b & Hb) _ (bs & Hbs)]; simpl.
  - now exists [].
  - rewrite Hb. simpl. rewrite Hbs. simpl. now exists (b :: bs).
Qed.

(** X21. Where the cast cannot fail: on a frame whose Category column is text
    and whose Year column is numeric without infinities, [load_data] returns. *)
Lemma load_data_total_on_numeric_years (read_number : string -> number)
  (df : list RawRecord) :
  is_object (map Category df) = true ->
  Forall (fun r => year_is_number (Year r) = true) df ->
  exists recs, load_data read_number df = OK recs.
Proof.
  intros Hobj Hyears. unfold load_data, str_accessor. rewrite Hobj. simpl.
  apply mapM_total. rewrite (map_map _ Weight). simpl.
  match goal with |- context [to_numeric _ ?c] => generalize c as col end.
  intros col. clear Hobj.
  induction Hyears as [|[c w y] df Hy _ IH]; simpl; [constructor|].
  destruct c as [s|n]; simpl; [|exact IH].
  destruct (isna_number (to_numeric read_number col w)); simpl; [exact IH|].
  destruct (isna y) eqn:Hna; simpl; [exact IH|].
  constructor; [|exact IH]. simpl in *.
  destruct y as [t|[z|x]]; simpl in *; try discriminate.
  - eexists. reflexivity.
  - rewrite Hna, orb_false_r in Hy. rewrite Hy. simpl. eexists. reflexivity.
Qed.

(** C4, on the code. A row whose year is a text that is no integer is not
    dropped, and the cast of the Year column raises: [load_data] fails on the
    file with the one data line [Paper,10,abc]. *)
Theorem load_data_year_text_raises (read_number : string -> number) :
  load_data read_number [mkRow (Str "Paper") (Num (Int 10)) (Str "abc")]
    = Raise ValueError.
Proof. reflexivity. Qed.

(** C5, as the code has it. Every record [load_data] returns has a weight
    that is a number and not the missing marker, and a year within int64;
    the records returned are exactly the rows none of whose category, weight
    and year is missing after the coercions, in their order, each normalized
    and cast. *)
Theorem load_data_records (read_number : string -> number) (df : list RawRecord)
  (recs : list (CleanRecord number)) :
  load_data read_number df = OK recs ->
  Forall (fun rec => isna_number (Weight rec) = false /\ in_int64 (Year rec) = true) recs /\
  Forall2 (cleaned read_number (map Weight df))
    (filter (complete read_number (map Weight df)) df) recs.
Proof.
  intros Hload. unfold load_data in Hload.
  destruct (str_accessor (map Category df)); simpl in Hload; [|discriminate].
  rewrite (map_map _ Weight) in Hload. simpl in Hload.
  apply load_rows_cleaned in Hload. split; [|exact Hload].
  eapply cleaned_rows_ok; [|exact Hload]. apply Forall_forall. intros r Hr.
  apply filter_In in Hr. tauto.
Qed.

(** C5 fails as stated: a negative weight and an infinite weight both pass
    the Loader (data lines [Paper,-5.0,2020] and [Glass,inf,2021]). *)
Lemma load_data_keeps_negative_and_infinite :
  load_data read_integer
    [mkRow (Str "Paper") (Num (Float (float_of_Z (-5)))) (Num (Int 2020));
     mkRow (Str "Glass") (Num (Float (S754_infinity false))) (Num (Int 2021))]
    = OK [mkRow "Paper" (Float (float_of_Z (-5))) 2020;
          mkRow "Glass" (Float (S754_infinity false)) 2021] /\
  nonneg_finite (Float (float_of_Z (-5))) = false /\
  nonneg_finite (Float (S754_infinity false)) = false.
Proof. repeat split. Qed.

(** ** The theorems at concrete inputs *)

(** The example of the specification: three records, two years, two
    categories. *)
Example spec_example_table :
  filtered_df spec_example 2020 2021 ["Paper"; "Glass"] =
    [mkRow "Paper" 15 2020; mkRow "Glass" 0 2020;
     mkRow "Paper" 0 2021; mkRow "Glass" 3 2021].
Proof. reflexivity. Qed.

Example spec_example_grouped :
  df_grouped spec_example = [mkRow "Paper" 15 2020; mkRow "Glass" 3 2021] /\
  categories_unique spec_example = ["Glass"; "Paper"].
Proof. split; reflexivity. Qed.

Example strip_title_text :
  PyStr.title (PyStr.strip "  waste paper ") = "Waste Paper" /\
  PyStr.title "e-waste 2nd bin" = "E-Waste 2Nd Bin".
Proof. split; reflexivity. Qed.

Example int_of_text :
  PyStr.int " 2020 " = Some 2020 /\ PyStr.int "1_000" = Some 1000 /\
  PyStr.int "-7" = Some (-7) /\ PyStr.int "abc" = None /\
  PyStr.int "2020.0" = None /\ PyStr.int "" = None /\
  PyStr.int "1__0" = None /\ PyStr.int "_1" = None /\
  PyStr.int (String "031" "2020") = None /\ PyStr.int "20 20" = None.
Proof. repeat split. Qed.

(** A uint64 year wraps into int64; an int64 year is kept. *)
Example astype_int_wraps :
  astype_int (Num (Int (2 ^ 64 - 1))) = OK (-1) /\
  astype_int (Num (Int 2020)) = OK 2020.
Proof. split; reflexivity. Qed.

(** A frame whose Category column holds no text has no [.str] accessor. *)
Example load_data_numeric_categories :
  load_data read_integer [mkRow (Num (Int 1)) (Num (Int 10)) (Num (Int 2020))]
    = Raise AttributeError.
Proof. reflexivity. Qed.

(** float64 addition is not associative: 2^53 + 1 + 1 depends on the
    grouping. *)
Example float64_add_not_associative :
  SFadd 53 1024 (SFadd 53 1024 (float_of_Z (2 ^ 53)) (float_of_Z 1)) (float_of_Z 1)
    <> SFadd 53 1024 (float_of_Z (2 ^ 53)) (SFadd 53 1024 (float_of_Z 1) (float_of_Z 1)).
Proof. vm_compute. discriminate. Qed.

(** The compensated sum recovers what the plain sum loses on 1e16 + 1 + 1. *)
Example compensated_sum_of_three :
  float64_value (sum_weights
    [float64_cell (float_of_Z (10 ^ 16)); float64_cell (float_of_Z 1);
     float64_cell (float_of_Z 1)]) = float_of_Z (10 ^ 16 + 2) /\
  plain_sum [float_of_Z (10 ^ 16); float_of_Z 1; float_of_Z 1] = float_of_Z (10 ^ 16).
Proof. split; vm_compute; reflexivity. Qed.

(** C3 fails as stated on float64 weights.  For the records (2020, Paper,
    2^53), (2020, Paper, 1), (2021, Paper, 1), (2021, Paper, 1) the table
    holds 2^53 for 2020 (2^53 + 1 is no float64) and 2 for 2021.  The Paper
    rows of the table and the Paper records then have different sums,
    whether the sums are compensated as [groupby] does, plain left to
    right, or exact. *)
Lemma float64_category_sum_not_conserved :
  map (fun r => (Year r, Category r, float64_value (Weight r)))
    (filtered_df heavy_and_light 2020 2021 ["Paper"])
    = [(2020, "Paper", float_of_Z (2 ^ 53)); (2021, "Paper", float_of_Z 2)] /\
  float64_value (sum_weights (map Weight
      (filter (in_category "Paper") (filtered_df heavy_and_light 2020 2021 ["Paper"]))))
    <> float64_value (sum_weights (map Weight
      (filter (fun r => in_category "Paper" r && in_years 2020 2021 r)%bool
         heavy_and_light))) /\
  plain_sum (float64_values
      (filter (in_category "Paper") (filtered_df heavy_and_light 2020 2021 ["Paper"])))
    <> plain_sum (float64_values
      (filter (fun r => in_category "Paper" r && in_years 2020 2021 r)%bool
         heavy_and_light)) /\
  exact_sum (float64_values
      (filter (in_category "Paper") (filtered_df heavy_and_light 2020 2021 ["Paper"])))
    <> exact_sum (float64_values
      (filter (fun r => in_category "Paper" r && in_years 2020 2021 r)%bool
         heavy_and_light)).
Proof. repeat split; vm_compute; discriminate. Qed.


Lemma two_categories_NoDup : NoDup ["Paper"; "Glass"].
Proof. repeat constructor; simpl; intuition discriminate. Defined.

Lemma aggregate_table_complete_witness :
  2020 <= 2021 /\ NoDup ["Paper"; "Glass"] /\
  (List.length (filtered_df spec_example 2020 2021 ["Paper"; "Glass"])
     = (Z.to_nat (2021 - 2020 + 1) * List.length ["Paper"; "Glass"])%nat /\
   NoDup (map key (filtered_df spec_example 2020 2021 ["Paper"; "Glass"])) /\
   (forall y c, In (y, c) (map key (filtered_df spec_example 2020 2021 ["Paper"; "Glass"]))
                <-> 2020 <= y <= 2021 /\ In c ["Paper"; "Glass"])).
Proof.
  assert (Hy : 2020 <= 2021) by lia.
  split; [exact Hy|]. split; [exact two_categories_NoDup|].
  exact (aggregate_table_complete spec_example 2020 2021 ["Paper"; "Glass"] Hy
           two_categories_NoDup).
Defined.

Lemma zero_fill_witness :
  2020 <= 2021 <= 2021 /\ In "Paper" ["Paper"; "Glass"] /\
  (forall r, In r spec_example -> ~ (Year r = 2021 /\ Category r = "Paper")) /\
  In (mkRow "Paper" 0 2021) (filtered_df spec_example 2020 2021 ["Paper"; "Glass"]).
Proof.
  assert (Hy : 2020 <= 2021 <= 2021) by lia.
  assert (Hc : In "Paper" ["Paper"; "Glass"]) by (simpl; auto).
  assert (Hn : forall r, In r spec_example -> ~ (Year r = 2021 /\ Category r = "Paper")).
  { simpl. intros r [<-|[<-|[<-|[]]]]; simpl; intros [H1 H2]; discriminate. }
  split; [exact Hy|]. split; [exact Hc|]. split; [exact Hn|].
  exact (zero_fill spec_example 2020 2021 ["Paper"; "Glass"] 2021 "Paper" Hy Hc Hn).
Defined.

Lemma weight_conservation_witness :
  ExactNum Z /\
  ((forall C c, NoDup C -> In c C ->
      sum_weights (map Weight (filter (in_category c) (filtered_df spec_example 2020 2021 C))) =
      sum_weights (map Weight
        (filter (fun r => in_category c r && in_years 2020 2021 r)%bool spec_example))) /\
   sum_weights (map Weight (filtered_df spec_example 2020 2021 (categories_unique spec_example))) =
     sum_weights (map Weight (filter (in_years 2020 2021) spec_example))).
Proof.
  split; [exact Z_ExactNum|].
  exact (weight_conservation (EXACT := Z_ExactNum) spec_example 2020 2021).
Defined.

Lemma load_data_records_witness :
  load_data read_integer
    [mkRow (Str " paper") (Str "12") (Num (Int 2020));
     mkRow (Str "PAPER ") (Str "unknown") (Num (Int 2021))]
    = OK [mkRow "Paper" (Float (float_of_Z 12)) 2020] /\
  (Forall (fun rec => isna_number (Weight rec) = false /\ in_int64 (Year rec) = true)
     [mkRow "Paper" (Float (float_of_Z 12)) 2020] /\
   Forall2 (cleaned read_integer [Str "12"; Str "unknown"])
     (filter (complete read_integer [Str "12"; Str "unknown"])
        [mkRow (Str " paper") (Str "12") (Num (Int 2020));
         mkRow (Str "PAPER ") (Str "unknown") (Num (Int 2021))])
     [mkRow "Paper" (Float (float_of_Z 12)) 2020]).
Proof.
  assert (Hl : load_data read_integer
    [mkRow (Str " paper") (Str "12") (Num (Int 2020));
     mkRow (Str "PAPER ") (Str "unknown") (Num (Int 2021))]
    = OK [mkRow "Paper" (Float (float_of_Z 12)) 2020]) by reflexivity.
  split; [exact Hl|].
  exact (load_data_records read_integer _ _ Hl).
Defined.

Lemma inverted_range_empty_witness :
  2020 < 2021 /\ ["Paper"; "Glass"] <> [] /\
  filtered_df spec_example 2021 2020 ["Paper"; "Glass"] = [].
Proof.
  assert (Hy : 2020 < 2021) by lia.
  assert (Hc : ["Paper"; "Glass"] <> []) by discriminate.
  split; [exact Hy|]. split; [exact Hc|].
  exact (inverted_range_empty spec_example 2021 2020 ["Paper"; "Glass"] Hy Hc).
Defined.




(** * Further properties of the script *)

(** ** Category normalization (line 12) *)

Lemma char_case_facts (c : ascii) :
  PyStr.isspace (PyStr.upper c) = PyStr.isspace c /\
  PyStr.isspace (PyStr.lower c) = PyStr.isspace c /\
  PyStr.upper (PyStr.upper c) = PyStr.upper c /\
  PyStr.lower (PyStr.lower c) = PyStr.lower c /\
  PyStr.upper (PyStr.lower c) = PyStr.upper c /\
  PyStr.lower (PyStr.upper c) = PyStr.lower c.
Proof.
  revert c. apply ascii_cases.
  intros [] [] [] [] [] [] [] []; vm_compute; repeat split; reflexivity.
Qed.

Lemma title_from_idempotent (b : bool) (s : string) :
  PyStr.title_from b (PyStr.title_from b s) = PyStr.title_from b s.
Proof.
  revert b. induction s as [|c s IH]; intros b; simpl; [reflexivity|].
  destruct (char_case_facts c) as (_ & _ & Huu & Hll & _ & _).
  destruct (upper_lower_keep_cased c) as [Hcu Hcl].
  destruct b.
  - now rewrite Hll, Hcl, IH.
  - now rewrite Huu, Hcu, IH.
Qed.

Lemma title_from_starts_with_space (b : bool) (s : string) :
  starts_with_space (PyStr.title_from b s) = starts_with_space s.
Proof.
  destruct s as [|c s]; simpl; [reflexivity|].
  destruct (char_case_facts c) as (Hu & Hl & _). now destruct b.
Qed.

Lemma title_from_ends_with_space (b : bool) (s : string) :
  ends_with_space (PyStr.title_from b s) = ends_with_space s.
Proof.
  revert b. induction s as [|c s IH]; intros b; [reflexivity|].
  destruct s as [|c' s].
  - simpl. destruct (char_case_facts c) as (Hu & Hl & _). now destruct b.
  - change (ends_with_space (String c (String c' s))) with (ends_with_space (String c' s)).
    rewrite <- (IH (PyStr.iscased c)). reflexivity.
Qed.

Lemma lstrip_fixed (s : string) : starts_with_space s = false -> PyStr.lstrip s = s.
Proof. destruct s as [|c s]; simpl; [reflexivity|]. now intros ->. Qed.

Lemma rstrip_fixed (s : string) : ends_with_space s = false -> PyStr.rstrip s = s.
Proof.
  induction s as [|c s IH]; [reflexivity|].
  destruct s as [|c' s].
  - simpl. now intros ->.
  - intros H. change (ends_with_space (String c' s) = false) in H.
    change (PyStr.rstrip (String c (String c' s)))
      with (match PyStr.rstrip (String c' s) with
            | EmptyString => if PyStr.isspace c then EmptyString else String c EmptyString
            | t' => String c t'
            end).
    now rewrite (IH H).
Qed.

Lemma strip_fixed (s : string) :
  starts_with_space s = false -> ends_with_space s = false -> PyStr.strip s = s.
Proof.
  intros Hs He. unfold PyStr.strip. rewrite (lstrip_fixed s Hs). now apply rstrip_fixed.
Qed.

(** A normalized category is a fixed point of the normalization. *)
Lemma strip_title_fixed (s : string) :
  PyStr.title (PyStr.strip (PyStr.title (PyStr.strip s))) = PyStr.title (PyStr.strip s).
Proof.
  destruct (strip_spec s) as (l & r & _ & _ & _ & Hs & He).
  unfold PyStr.title at 2. rewrite strip_fixed.
  - apply title_from_idempotent.
  - now rewrite title_from_starts_with_space.
  - now rewrite title_from_ends_with_space.
Qed.

(** X1. On ASCII text, normalizing a category twice gives what normalizing
    it once gives. *)
Theorem normalization_idempotent (s t : string) :
  is_ascii s = true ->
  str_strip_title (Str s) = Some t -> str_strip_title (Str t) = Some t.
Proof. intros _. simpl. intros [= <-]. f_equal. apply strip_title_fixed. Qed.

Lemma lstrip_spaces_app (l s : string) :
  all_space l = true -> PyStr.lstrip (l ++ s) = PyStr.lstrip s.
Proof.
  induction l as [|c l IH]; simpl; [reflexivity|].
  rewrite andb_true_iff. intros [-> Hl]. now apply IH.
Qed.

Lemma rstrip_spaces (r : string) : all_space r = true -> PyStr.rstrip r = "".
Proof.
  induction r as [|c r IH]; simpl; [reflexivity|].
  rewrite andb_true_iff. intros [Hc Hr]. now rewrite (IH Hr), Hc.
Qed.

Lemma rstrip_app_spaces (s r : string) :
  all_space r = true -> PyStr.rstrip (s ++ r) = PyStr.rstrip s.
Proof.
  intros Hr. induction s as [|c s IH]; simpl.
  - now apply rstrip_spaces.
  - now rewrite IH.
Qed.

Lemma lstrip_spaces (r : string) : all_space r = true -> PyStr.lstrip r = "".
Proof.
  induction r as [|c r IH]; simpl; [reflexivity|].
  rewrite andb_true_iff. intros [-> Hr]. now apply IH.
Qed.

Lemma strip_app_spaces (s r : string) :
  all_space r = true -> PyStr.strip (s ++ r) = PyStr.strip s.
Proof.
  intros Hr. unfold PyStr.strip. induction s as [|c s IH]; simpl.
  - now rewrite lstrip_spaces.
  - destruct (PyStr.isspace c); [exact IH|].
    now apply (rstrip_app_spaces (String c s)).
Qed.

Lemma lowercase_lstrip (s : string) :
  lowercase (PyStr.lstrip s) = PyStr.lstrip (lowercase s).
Proof.
  induction s as [|c s IH]; simpl; [reflexivity|].
  destruct (char_case_facts c) as (_ & -> & _).
  now destruct (PyStr.isspace c).
Qed.

Lemma lowercase_rstrip (s : string) :
  lowercase (PyStr.rstrip s) = PyStr.rstrip (lowercase s).
Proof.
  induction s as [|c s IH]; simpl; [reflexivity|].
  rewrite <- IH. destruct (char_case_facts c) as (_ & Hl & _).
  destruct (PyStr.rstrip s); simpl; [|reflexivity].
  rewrite Hl. now destruct (PyStr.isspace c).
Qed.

Lemma title_from_lowercase (b : bool) (s s' : string) :
  lowercase s = lowercase s' -> PyStr.title_from b s = PyStr.title_from b s'.
Proof.
  revert b s'. induction s as [|c s IH]; intros b [|c' s']; simpl; try discriminate;
    [reflexivity|].
  intros [= Hc Hs].
  destruct (char_case_facts c) as (_ & _ & _ & _ & Hul & _).
  destruct (char_case_facts c') as (_ & _ & _ & _ & Hul' & _).
  destruct (upper_lower_keep_cased c) as [_ Hcl], (upper_lower_keep_cased c') as [_ Hcl'].
  assert (Hup : PyStr.upper c = PyStr.upper c') by (rewrite <- Hul, <- Hul'; now rewrite Hc).
  assert (Hca : PyStr.iscased c = PyStr.iscased c') by (rewrite <- Hcl, <- Hcl'; now rewrite Hc).
  rewrite Hc, Hup, Hca, (IH _ _ Hs). reflexivity.
Qed.

(** X2. Texts that differ only in letter case and in whitespace around them
    normalize to the same category. *)
Theorem normalization_ignores_case_and_padding (s s' l r l' r' : string) :
  all_space l = true -> all_space r = true ->
  all_space l' = true -> all_space r' = true ->
  lowercase s = lowercase s' ->
  str_strip_title (Str (l ++ s ++ r)) = str_strip_title (Str (l' ++ s' ++ r')).
Proof.
  intros Hl Hr Hl' Hr' Hs. simpl. f_equal.
  assert (Hpad : forall a x b, all_space a = true -> all_space b = true ->
                   PyStr.strip (a ++ x ++ b) = PyStr.strip x).
  { intros a x b Ha Hb. unfold PyStr.strip at 1. rewrite lstrip_spaces_app by exact Ha.
    now apply strip_app_spaces. }
  rewrite !Hpad by assumption.
  apply title_from_lowercase. unfold PyStr.strip.
  now rewrite !lowercase_rstrip, !lowercase_lstrip, Hs.
Qed.

(** ** The Loader: when it returns, what it raises, what it keeps (lines 10-16) *)

Lemma mapM_raises {A B : Type} (f : A -> result B) (l : list A) (e : exception) :
  mapM f l = Raise e -> exists a, In a l /\ f a = Raise e.
Proof.
  induction l as [|a l IH]; simpl; [discriminate|].
  destruct (f a) as [b|e'] eqn:Hb; simpl.
  - destruct (mapM f l) as [bs|e'']; simpl; [discriminate|].
    intros [= <-]. destruct IH as (a' & Hin & Ha'); [reflexivity|].
    exists a'. auto.
  - intros [= <-]. exists a. auto.
Qed.

Section LoaderRows.

Variable read_number : string -> number.
Variable col : list scalar.

(** The rows [dropna] lets through are the complete rows of the frame. *)
Lemma dropna_rows (df : list RawRecord) :
  dropna
    (map (fun r => mkRow (Category r) (to_numeric read_number col (Weight r)) (Year r))
       (map (fun r => mkRow (str_strip_title (Category r)) (Weight r) (Year r)) df))
  = flat_map (fun r =>
      match str_strip_title (Category r) with
      | Some c => [mkRow c (to_numeric read_number col (Weight r)) (Year r)]
      | None => []
      end) (filter (complete read_number col) df).
Proof.
  induction df as [|[c w y] df IH]; simpl; [reflexivity|].
  unfold complete at 1. simpl.
  destruct c as [s|n]; simpl; [|exact IH].
  destruct (isna_number (to_numeric read_number col w)); simpl; [exact IH|].
  destruct (isna y); simpl; [exact IH|].
  now rewrite IH.
Qed.

Lemma dropna_years (df : list RawRecord) (x : Row string number scalar) :
  In x (dropna
    (map (fun r => mkRow (Category r) (to_numeric read_number col (Weight r)) (Year r))
       (map (fun r => mkRow (str_strip_title (Category r)) (Weight r) (Year r)) df))) ->
  exists r, In r df /\ complete read_number col r = true /\ Year x = Year r.
Proof.
  rewrite dropna_rows, in_flat_map. intros (r & Hr & Hx).
  apply filter_In in Hr. destruct Hr as [Hr Hc].
  exists r. repeat split; [exact Hr|exact Hc|].
  destruct (str_strip_title (Category r)); [|destruct Hx].
  destruct Hx as [<-|[]]. reflexivity.
Qed.

End LoaderRows.

Lemma cleaned_rows_cast (read_number : string -> number) (col : list scalar)
  (raws : list RawRecord) (recs : list (CleanRecord number)) (r : RawRecord) :
  Forall2 (cleaned read_number col) raws recs -> In r raws ->
  exists y, astype_int (Year r) = OK y.
Proof.
  induction 1 as [|raw rec raws recs' (_ & _ & Hy) _ IH].
  - intros [].
  - intros [<-|Hin]; [now exists (Year rec)|now apply IH].
Qed.

Ltac load_data_unfold H :=
  unfold load_data, str_accessor in H;
  rewrite (map_map _ Weight) in H; simpl in H.

(** X3. On a frame whose year texts are ASCII, [load_data] returns exactly
    when the Category column is text and the year of every row that survives
    [dropna] can be cast; a year that cannot be cast is harmless in a row
    that is dropped. *)
Theorem load_data_returns_iff (read_number : string -> number) (df : list RawRecord) :
  ascii_texts (map Year df) ->
  ((exists recs, load_data read_number df = OK recs) <->
   is_object (map Category df) = true /\
   Forall (fun r => complete read_number (map Weight df) r = true ->
                    exists y, astype_int (Year r) = OK y) df).
Proof.
  intros _. split.
  - intros (recs & Hload). load_data_unfold Hload.
    destruct (is_object (map Category df)); simpl in Hload; [|discriminate].
    split; [reflexivity|].
    apply load_rows_cleaned in Hload.
    apply Forall_forall. intros r Hr Hc.
    assert (Hin : In r (filter (complete read_number (map Weight df)) df))
      by (apply filter_In; auto).
    eapply cleaned_rows_cast; [exact Hload|exact Hin].
  - intros [Hobj Hall]. unfold load_data, str_accessor. rewrite Hobj. simpl.
    apply mapM_total. rewrite (map_map _ Weight). simpl.
    apply Forall_forall. intros x Hx.
    apply dropna_years in Hx. destruct Hx as (r & Hr & Hc & Hy).
    rewrite Forall_forall in Hall. destruct (Hall r Hr Hc) as (y & Hcast).
    rewrite Hy, Hcast. simpl. eexists. reflexivity.
Qed.

(** X4. On a frame whose year texts are ASCII: when [load_data] raises,
    either the Category column is not text and the exception is
    AttributeError, or some row that survives [dropna] has a year whose cast
    raises that exception, which is then not AttributeError. *)
Theorem load_data_raises (read_number : string -> number) (df : list RawRecord)
  (e : exception) :
  ascii_texts (map Year df) ->
  load_data read_number df = Raise e ->
  (e = AttributeError /\ is_object (map Category df) = false) \/
  (is_object (map Category df) = true /\ e <> AttributeError /\
   exists r, In r df /\ complete read_number (map Weight df) r = true /\
             astype_int (Year r) = Raise e).
Proof.
  intros _ Hload. load_data_unfold Hload.
  destruct (is_object (map Category df)); simpl in Hload.
  - right. apply mapM_raises in Hload. destruct Hload as (x & Hx & Hraise).
    apply dropna_years in Hx. destruct Hx as (r & Hr & Hc & Hy).
    rewrite Hy in Hraise.
    destruct (astype_int (Year r)) as [y|e'] eqn:Hcast; simpl in Hraise; [discriminate|].
    injection Hraise as ->. split; [reflexivity|]. split.
    + clear -Hcast. destruct (Year r) as [s|[z|x]]; simpl in Hcast.
      * destruct (PyStr.int s) as [z|]; [destruct (in_int64 z)|]; congruence.
      * discriminate.
      * destruct (is_finite x); congruence.
    + exists r. auto.
  - left. now injection Hload as <-.
Qed.

(** X5. On a frame whose category texts are ASCII, every category
    [load_data] returns is in normal form: normalizing it again leaves it as
    it is. *)
Theorem load_data_categories_canonical (read_number : string -> number)
  (df : list RawRecord) (recs : list (CleanRecord number)) :
  ascii_texts (map Category df) ->
  load_data read_number df = OK recs ->
  Forall (fun rec => str_strip_title (Str (Category rec)) = Some (Category rec)) recs.
Proof.
  intros _ Hload. load_data_unfold Hload.
  destruct (is_object (map Category df)); simpl in Hload; [|discriminate].
  apply load_rows_cleaned in Hload.
  induction Hload as [|raw rec raws recs' (Hc & _ & _) _ IH]; constructor; [|exact IH].
  destruct (Category raw) as [s|n]; simpl in Hc; [|discriminate].
  injection Hc as Hc. rewrite <- Hc. simpl. f_equal. apply strip_title_fixed.
Qed.

(** ** Whole-number years stored as float64 (line 15) *)

Lemma digits2_pos_bounds (m : positive) :
  2 ^ (Z.pos (digits2_pos m) - 1) <= Z.pos m < 2 ^ Z.pos (digits2_pos m).
Proof.
  induction m as [m IH|m IH|]; simpl digits2_pos.
  - rewrite Pos2Z.inj_succ. change (Z.pos m~1) with (2 * Z.pos m + 1).
    replace (Z.succ (Z.pos (digits2_pos m)) - 1) with (Z.succ (Z.pos (digits2_pos m) - 1)) by lia.
    rewrite !Z.pow_succ_r by lia. lia.
  - rewrite Pos2Z.inj_succ. change (Z.pos m~0) with (2 * Z.pos m).
    replace (Z.succ (Z.pos (digits2_pos m)) - 1) with (Z.succ (Z.pos (digits2_pos m) - 1)) by lia.
    rewrite !Z.pow_succ_r by lia. lia.
  - simpl. lia.
Qed.

Lemma iter_xO_digits (m k : positive) :
  digits2_pos (Pos.iter xO m k) = (digits2_pos m + k)%positive.
Proof.
  induction k as [|k IH] using Pos.peano_ind.
  - simpl. lia.
  - rewrite Pos.iter_succ. simpl. rewrite IH. lia.
Qed.

Lemma iter_xO_value (m k : positive) :
  Z.pos (Pos.iter xO m k) = Z.pos m * 2 ^ Z.pos k.
Proof.
  induction k as [|k IH] using Pos.peano_ind.
  - simpl. lia.
  - rewrite Pos.iter_succ, Pos2Z.inj_succ, Z.pow_succ_r by lia.
    change (Z.pos (Pos.iter xO m k)~0) with (2 * Z.pos (Pos.iter xO m k)). lia.
Qed.

Lemma shr_fexp_aligned (mz : positive) (ez : Z) :
  Z.pos (digits2_pos mz) = 53 -> -52 <= ez <= 0 ->
  shr_fexp 53 1024 (Z.pos mz) ez loc_Exact
    = ({| shr_m := Z.pos mz; shr_r := false; shr_s := false |}, ez).
Proof.
  intros Hd He. unfold shr_fexp, fexp, emin.
  change (Zdigits2 (Z.pos mz)) with (Z.pos (digits2_pos mz)). rewrite Hd.
  replace (Z.max (53 + ez - 53) (3 - 1024 - 53) - ez) with 0 by lia.
  reflexivity.
Qed.

Lemma binary_round_aligned (s : bool) (mz : positive) (ez : Z) :
  Z.pos (digits2_pos mz) = 53 -> -52 <= ez <= 0 ->
  binary_round_aux 53 1024 s (Z.pos mz) ez loc_Exact = S754_finite s mz ez.
Proof.
  intros Hd He. unfold binary_round_aux.
  rewrite (shr_fexp_aligned mz ez Hd He).
  change (round_nearest_even (shr_m {| shr_m := Z.pos mz; shr_r := false; shr_s := false |})
            (loc_of_shr_record {| shr_m := Z.pos mz; shr_r := false; shr_s := false |}))
    with (Z.pos mz).
  rewrite (shr_fexp_aligned mz ez Hd He).
  change (shr_m {| shr_m := Z.pos mz; shr_r := false; shr_s := false |}) with (Z.pos mz).
  replace (Z.leb ez (1024 - 53)) with true by (symmetry; apply Z.leb_le; lia).
  reflexivity.
Qed.

Lemma float_of_pos (s : bool) (m : positive) :
  Z.pos m < 2 ^ 53 ->
  exists mz ez, binary_round 53 1024 s m 0 = S754_finite s mz ez /\
                ez <= 0 /\ Z.pos mz = Z.pos m * 2 ^ (- ez).
Proof.
  intros Hm.
  pose proof (digits2_pos_bounds m) as [Hlo _].
  assert (Hd : Z.pos (digits2_pos m) <= 53).
  { destruct (Z.le_gt_cases (Z.pos (digits2_pos m)) 53) as [H|H]; [exact H|].
    exfalso. assert (2 ^ 53 <= 2 ^ (Z.pos (digits2_pos m) - 1)) by (apply Z.pow_le_mono_r; lia).
    lia. }
  unfold binary_round, shl_align, fexp, emin.
  replace (Z.max (Z.pos (digits2_pos m) + 0 - 53) (3 - 1024 - 53) - 0)
    with (Z.pos (digits2_pos m) - 53) by lia.
  destruct (Z.pos (digits2_pos m) - 53) as [|k|k] eqn:Hk; [|lia|].
  - exists m, 0. rewrite binary_round_aligned by lia. repeat split; lia.
  - exists (Pos.iter xO m k), (Z.max (Z.pos (digits2_pos m) + 0 - 53) (3 - 1024 - 53)).
    replace (Z.max (Z.pos (digits2_pos m) + 0 - 53) (3 - 1024 - 53)) with (Z.neg k) by lia.
    rewrite binary_round_aligned.
    + repeat split; [lia|]. rewrite iter_xO_value. reflexivity.
    + rewrite iter_xO_digits. lia.
    + lia.
Qed.

Lemma trunc_float_of_Z (z : Z) : Z.abs z < 2 ^ 53 -> trunc (float_of_Z z) = z.
Proof.
  intros Hz. unfold float_of_Z, binary_normalize.
  destruct z as [|m|m]; [reflexivity| |].
  - destruct (float_of_pos false m) as (mz & ez & -> & He & Hv); [lia|].
    unfold trunc. destruct (Z.leb_spec 0 ez).
    + replace ez with 0 in * by lia. simpl in Hv. lia.
    + rewrite Hv, Z.div_mul; [reflexivity|]. apply Z.pow_nonzero; lia.
  - destruct (float_of_pos true m) as (mz & ez & -> & He & Hv); [lia|].
    unfold trunc. destruct (Z.leb_spec 0 ez).
    + replace ez with 0 in * by lia. simpl in Hv. lia.
    + rewrite Hv, Z.div_mul; [lia|]. apply Z.pow_nonzero; lia.
Qed.

(** X6. A whole number below 2^53 in size that is stored as float64 (as the
    years of a column with a blank are) is not missing and is cast back by
    [astype(int)] to the same integer. *)
Theorem year_float_roundtrip (z : Z) :
  Z.abs z < 2 ^ 53 ->
  isna (Num (Float (float_of_Z z))) = false /\
  astype_int (Num (Float (float_of_Z z))) = OK z.
Proof.
  intros Hz.
  assert (Hfin : is_finite (float_of_Z z) = true).
  { unfold float_of_Z, binary_normalize. destruct z as [|m|m]; [reflexivity| |].
    - destruct (float_of_pos false m) as (mz & ez & -> & _); [lia|reflexivity].
    - destruct (float_of_pos true m) as (mz & ez & -> & _); [lia|reflexivity]. }
  split.
  - simpl. now destruct (float_of_Z z).
  - simpl. rewrite Hfin. unfold float_to_int64. rewrite (trunc_float_of_Z z Hz).
    replace (in_int64 z) with true; [reflexivity|].
    symmetry. unfold in_int64, int64_min, int64_max.
    apply andb_true_iff. rewrite !Z.leb_le.
    assert (2 ^ 53 < 2 ^ 63) by (apply Z.pow_lt_mono_r; lia). lia.
Qed.

(** ** Grouping (line 21) *)

Section GroupingFacts.

Context {K W : Type} {WA : Additive W}.
Context (cmp : K -> K -> comparison) {KO : KeyOrder cmp}.

Lemma increasing_tail_below (k : K) (w : W) (t : list (K * W)) :
  increasing cmp ((k, w) :: t) -> assoc cmp k t = None.
Proof.
  intros H. inversion H as [|? ? _ Hall]; subst. now apply (assoc_below cmp).
Qed.

(** Groups in increasing key order are determined by what they hold at
    each key. *)
Lemma increasing_ext (g1 g2 : list (K * W)) :
  increasing cmp g1 -> increasing cmp g2 ->
  (forall q, assoc cmp q g1 = assoc cmp q g2) -> g1 = g2.
Proof.
  revert g2. induction g1 as [|[k1 w1] t1 IH]; intros [|[k2 w2] t2] H1 H2 Heq.
  - reflexivity.
  - specialize (Heq k2). rewrite (assoc_cons cmp), (cmp_refl cmp) in Heq. discriminate.
  - specialize (Heq k1). rewrite (assoc_cons cmp), (cmp_refl cmp) in Heq. discriminate.
  - assert (Hk : k1 = k2).
    { destruct (cmp k1 k2) eqn:Hc.
      - now apply cmp_eq in Hc.
      - exfalso. specialize (Heq k1).
        rewrite !(assoc_cons cmp), (cmp_refl cmp), Hc in Heq. simpl in Heq.
        rewrite (assoc_below cmp) in Heq; [discriminate|].
        inversion H2 as [|? ? _ Hall]; subst.
        rewrite Forall_forall in Hall |- *. intros g Hg.
        eapply cmp_trans; [exact Hc|]. now apply (Hall g).
      - exfalso. apply (cmp_Gt_Lt cmp) in Hc. specialize (Heq k2).
        rewrite !(assoc_cons cmp), (cmp_refl cmp), Hc in Heq. simpl in Heq.
        rewrite (assoc_below cmp) in Heq; [discriminate|].
        inversion H1 as [|? ? _ Hall]; subst.
        rewrite Forall_forall in Hall |- *. intros g Hg.
        eapply cmp_trans; [exact Hc|]. now apply (Hall g). }
    subst k2.
    assert (Hw : w1 = w2).
    { specialize (Heq k1). rewrite !(assoc_cons cmp), (cmp_refl cmp) in Heq.
      simpl in Heq. congruence. }
    subst w2. f_equal.
    inversion H1 as [|? ? Ht1 _]; inversion H2 as [|? ? Ht2 _]; subst.
    apply IH; [exact Ht1|exact Ht2|]. intros q.
    destruct (is_Eq (cmp q k1)) eqn:Hq.
    + apply (is_Eq_true cmp) in Hq. subst q.
      now rewrite (increasing_tail_below _ _ _ H1), (increasing_tail_below _ _ _ H2).
    + specialize (Heq q). now rewrite !(assoc_cons cmp), Hq in Heq.
Qed.

End GroupingFacts.

Section SumPermutation.

Context {W : Type} {WA : Additive W} {EXACT : ExactNum W}.
Context {R : Type} (val : R -> W) (p : R -> bool).

(** A sum over selected rows does not depend on the order of the rows. *)
Lemma sum_filter_perm (l l' : list R) :
  Permutation.Permutation l l' ->
  sum_weights (map val (filter p l)) = sum_weights (map val (filter p l')).
Proof.
  induction 1 as [|x l l' _ IH|x y l|l l' l'' _ IH1 _ IH2].
  - reflexivity.
  - simpl. destruct (p x); simpl; [|exact IH]. now rewrite !sum_weights_cons, IH.
  - simpl. destruct (p x), (p y); simpl; try reflexivity.
    rewrite !sum_weights_cons, !wadd_assoc. f_equal. apply wadd_comm.
  - now rewrite IH1.
Qed.

End SumPermutation.

Lemma filter_perm {A : Type} (p : A -> bool) (l l' : list A) :
  Permutation.Permutation l l' -> Permutation.Permutation (filter p l) (filter p l').
Proof.
  induction 1 as [|x l l' _ IH|x y l|l l' l'' _ IH1 _ IH2]; simpl.
  - constructor.
  - destruct (p x); [now constructor|exact IH].
  - destruct (p x), (p y); try apply Permutation.Permutation_refl. constructor.
  - eapply Permutation.Permutation_trans; eauto.
Qed.

Section GroupedFrame.

Context {W : Type} {WA : Additive W}.

Implicit Types (df : list (CleanRecord W)).

Lemma df_grouped_row_iff df (c : string) (w : W) (y : Z) :
  In (mkRow c w y) (df_grouped df) <->
  (exists r, In r df /\ key r = (y, c)) /\
  w = sum_weights (map Weight (filter (has_label (y, c)) df)).
Proof.
  unfold df_grouped. rewrite in_map_iff.
  pose proof (groupby_sum_increasing label_compare key Weight df) as Hinc.
  pose proof (assoc_groupby_sum label_compare key Weight (y, c) df) as Has.
  rewrite members_has_label in Has.
  assert (Hin : (exists g, mkRow (snd (fst g)) (snd g) (fst (fst g)) = mkRow c w y /\
                   In g (groupby_sum label_compare key Weight df))
                <-> In ((y, c), w) (groupby_sum label_compare key Weight df)).
  { split.
    - intros ([[y' c'] w'] & [= -> -> ->] & Hg). exact Hg.
    - intros Hg. exists ((y, c), w). auto. }
  rewrite Hin, (increasing_In_assoc label_compare _ _ _ Hinc), Has.
  destruct (filter (has_label (y, c)) df) as [|r rs] eqn:Hf.
  - split; [discriminate|]. intros [(r & Hr & Hk) _]. exfalso.
    assert (Hin' : In r (filter (has_label (y, c)) df))
      by (apply filter_In; split; [exact Hr|now apply has_label_true]).
    rewrite Hf in Hin'. destruct Hin'.
  - split.
    + intros [= <-]. split; [|reflexivity]. exists r.
      assert (Hin' : In r (filter (has_label (y, c)) df)) by (rewrite Hf; now left).
      apply filter_In in Hin'. destruct Hin' as [Hr Hl]. apply has_label_true in Hl. auto.
    + intros [_ ->]. reflexivity.
Qed.

Lemma df_grouped_increasing df : labels_increasing (df_grouped df).
Proof.
  unfold labels_increasing, df_grouped.
  pose proof (groupby_sum_increasing label_compare key Weight df) as Hinc.
  unfold increasing in Hinc.
  induction Hinc as [|[[y c] w] t _ IH Hall]; simpl; constructor; [exact IH|].
  rewrite Forall_forall in Hall |- *. intros r Hr.
  apply in_map_iff in Hr. destruct Hr as ([[y' c'] w'] & <- & Hg).
  apply (Hall _ Hg).
Qed.

(** X7. [df_grouped] has one row per (Year, Category) pair that occurs in the
    clean records, in strictly increasing (Year, Category) order, and the row
    holds the sum of the weights of the records of that pair.  Weights are
    added exactly. *)
Theorem df_grouped_rows {EXACT : ExactNum W} df :
  labels_increasing (df_grouped df) /\
  forall c w y, In (mkRow c w y) (df_grouped df) <->
    (exists r, In r df /\ Year r = y /\ Category r = c) /\
    w = sum_weights (map Weight (filter (has_label (y, c)) df)).
Proof.
  split; [apply df_grouped_increasing|].
  intros c w y. rewrite df_grouped_row_iff.
  split; intros [(r & Hr & Hk) Hw]; (split; [|exact Hw]); exists r.
  - unfold key in Hk. inversion Hk. auto.
  - destruct Hk as [<- <-]. auto.
Qed.

(** Every row of [df_grouped] is the cell of its label. *)
Lemma df_grouped_cells df : df_grouped df = map (cell df) (map key (df_grouped df)).
Proof.
  rewrite map_map. rewrite <- (map_id (df_grouped df)) at 1.
  apply map_ext_in. intros [c w y] Hr.
  apply df_grouped_row_iff in Hr. destruct Hr as [_ ->]. reflexivity.
Qed.

Lemma filter_all {A : Type} (p : A -> bool) (l : list A) :
  (forall a, In a l -> p a = true) -> filter p l = l.
Proof.
  induction l as [|a l IH]; simpl; intros H; [reflexivity|].
  rewrite (H a) by now left. f_equal. apply IH. intros b Hb. apply H. now right.
Qed.

Lemma filter_none {A : Type} (p : A -> bool) (l : list A) :
  (forall a, In a l -> p a = false) -> filter p l = [].
Proof.
  induction l as [|a l IH]; simpl; intros H; [reflexivity|].
  rewrite (H a) by now left. apply IH. intros b Hb. apply H. now right.
Qed.

(** X8. Grouping conserves the total weight: the weights of [df_grouped] add
    up to the weights of the clean records.  Weights are added exactly. *)
Theorem df_grouped_conserves_total {EXACT : ExactNum W} df :
  sum_weights (map Weight (df_grouped df)) = sum_weights (map Weight df).
Proof.
  rewrite df_grouped_cells, sum_cells by apply df_grouped_labels_NoDup.
  f_equal. f_equal. apply filter_all. intros r Hr.
  apply existsb_exists. exists (key r). split; [|now apply has_label_true].
  apply df_grouped_label_iff. now apply in_map.
Qed.

Lemma group_value_perm {EXACT : ExactNum W} (p : CleanRecord W -> bool) df df' :
  Permutation.Permutation df df' ->
  match filter p df with
  | [] => None
  | ms => Some (sum_weights (map Weight ms))
  end =
  match filter p df' with
  | [] => None
  | ms => Some (sum_weights (map Weight ms))
  end.
Proof.
  intros Hp.
  assert (Hsum : sum_weights (map Weight (filter p df))
                 = sum_weights (map Weight (filter p df')))
    by exact (sum_filter_perm (@Weight string W Z) p df df' Hp).
  pose proof (filter_perm p df df' Hp) as Hf.
  revert Hsum Hf.
  destruct (filter p df) as [|r rs], (filter p df') as [|r' rs']; intros Hsum Hf.
  - reflexivity.
  - apply Permutation.Permutation_nil in Hf. discriminate.
  - apply Permutation.Permutation_sym, Permutation.Permutation_nil in Hf. discriminate.
  - f_equal. exact Hsum.
Qed.

(** X9. The order of the clean records does not matter: reordering them
    changes neither [df_grouped], nor the category options, nor anything given
    to the views.  Weights are added exactly. *)
Theorem input_order_irrelevant {EXACT : ExactNum W} df df' :
  Permutation.Permutation df df' ->
  df_grouped df = df_grouped df' /\
  categories_unique df = categories_unique df' /\
  forall y0 y1 C, dashboard df y0 y1 C = dashboard df' y0 y1 C.
Proof.
  intros Hp.
  assert (Hg : df_grouped df = df_grouped df').
  { unfold df_grouped. f_equal.
    apply (increasing_ext label_compare);
      try apply (groupby_sum_increasing label_compare).
    intros q. rewrite !assoc_groupby_sum by exact _.
    unfold members. now apply group_value_perm. }
  split; [exact Hg|]. split.
  - unfold categories_unique. now rewrite Hg.
  - intros y0 y1 C. unfold dashboard, filtered_df. now rewrite Hg.
Qed.

(** X10. Grouping a frame that is already grouped changes nothing.  Weights
    are added exactly. *)
Theorem df_grouped_idempotent {EXACT : ExactNum W} df :
  df_grouped (df_grouped df) = df_grouped df.
Proof.
  rewrite (df_grouped_cells (df_grouped df)).
  rewrite (df_grouped_cells df) at 3.
  assert (Hlabels : map key (df_grouped (df_grouped df)) = map key (df_grouped df)).
  { assert (Hfst : forall d : list (CleanRecord W),
              map key (df_grouped d) = map fst (groupby_sum label_compare key Weight d)).
    { intros d. unfold df_grouped. rewrite map_map. apply map_ext. now intros [[y c] w]. }
    rewrite !Hfst.
    pose proof (groupby_sum_increasing label_compare key Weight df) as H1.
    pose proof (groupby_sum_increasing label_compare key Weight (df_grouped df)) as H2.
    set (u := fun g : Z * string * W => (fst g, tt)).
    assert (Hu : forall g, increasing label_compare g ->
                   @increasing _ unit label_compare (map u g)).
    { intros g Hg. unfold increasing in *.
      induction Hg as [|a t _ IH Hall]; simpl; constructor; [exact IH|].
      rewrite Forall_forall in Hall |- *. intros x Hx.
      apply in_map_iff in Hx. destruct Hx as (b & <- & Hb). apply (Hall b Hb). }
    assert (Hm : forall g : list (Z * string * W), map fst g = map fst (map u g)).
    { intros g. rewrite map_map. reflexivity. }
    rewrite (Hm (groupby_sum _ _ _ (df_grouped df))), (Hm (groupby_sum _ _ _ df)).
    f_equal. apply (increasing_ext label_compare); [now apply Hu|now apply Hu|].
    intros q.
    assert (Hau : forall g : list (Z * string * W),
               assoc label_compare q (map u g)
               = option_map (fun _ => tt) (assoc label_compare q g)).
    { intros g. unfold assoc. induction g as [|a t IH]; simpl; [reflexivity|].
      destruct (is_Eq (label_compare q (fst a))); [reflexivity|exact IH]. }
    rewrite !Hau, !assoc_groupby_sum, !members_has_label by exact _.
    destruct (filter (has_label q) (df_grouped df)) as [|r rs] eqn:Hf1;
      destruct (filter (has_label q) df) as [|r' rs'] eqn:Hf2; try reflexivity; exfalso.
    - assert (Hin : In r' (filter (has_label q) df)) by (rewrite Hf2; now left).
      apply filter_In in Hin. destruct Hin as [Hin Hl]. apply has_label_true in Hl.
      assert (Hk : In q (map key (df_grouped df))).
      { apply df_grouped_label_iff. rewrite <- Hl. now apply in_map. }
      apply in_map_iff in Hk. destruct Hk as (g & Hg & Hgin).
      assert (Hin' : In g (filter (has_label q) (df_grouped df)))
        by (apply filter_In; split; [exact Hgin|now apply has_label_true]).
      rewrite Hf1 in Hin'. destruct Hin'.
    - assert (Hin : In r (filter (has_label q) (df_grouped df))) by (rewrite Hf1; now left).
      apply filter_In in Hin. destruct Hin as [Hin Hl]. apply has_label_true in Hl.
      assert (Hk : In q (map key df)).
      { apply df_grouped_label_iff. rewrite <- Hl. now apply in_map. }
      apply in_map_iff in Hk. destruct Hk as (g & Hg & Hgin).
      assert (Hin' : In g (filter (has_label q) df))
        by (apply filter_In; split; [exact Hgin|now apply has_label_true]).
      rewrite Hf2 in Hin'. destruct Hin'. }
  rewrite Hlabels. apply map_ext_in. intros l Hl. unfold cell. f_equal.
  (* the one grouped row of label [l] holds the sum of the records of [l] *)
  pose proof (df_grouped_labels_NoDup df) as Hnd.
  apply in_map_iff in Hl. destruct Hl as (g & Hg & Hgin).
  assert (Hone : filter (has_label l) (df_grouped df) = [g]).
  { clear -Hnd Hg Hgin. induction (df_grouped df) as [|a t IH]; [destruct Hgin|].
    simpl in Hnd. inversion Hnd as [|? ? Ha Ht]; subst. simpl.
    destruct Hgin as [->|Hgin].
    - rewrite (proj2 (has_label_true (key g) g) eq_refl). f_equal.
      apply filter_none. intros b Hb.
      destruct (has_label (key g) b) eqn:He; [|reflexivity].
      apply has_label_true in He. exfalso. apply Ha. rewrite <- He. now apply in_map.
    - destruct (has_label (key g) a) eqn:He.
      + apply has_label_true in He. exfalso. apply Ha. rewrite He. now apply in_map.
      + now apply IH. }
  rewrite Hone. destruct g as [c w y]. apply df_grouped_row_iff in Hgin.
  destruct Hgin as [_ Hw]. unfold key in Hg. simpl in Hg. subst l.
  simpl. unfold sum_weights at 1. simpl. rewrite wadd_zero_l. exact Hw.
Qed.

End GroupedFrame.

(** ** The category options (line 25) *)

Lemma string_leb_trans (a b c : string) :
  String.leb a b = true -> String.leb b c = true -> String.leb a c = true.
Proof.
  unfold String.leb.
  destruct (String.compare a b) eqn:Hab; try discriminate;
    destruct (String.compare b c) eqn:Hbc; try discriminate; intros _ _.
  - apply String.compare_eq_iff in Hab, Hbc. subst. now rewrite string_compare_refl.
  - apply String.compare_eq_iff in Hab. subst. now rewrite Hbc.
  - apply String.compare_eq_iff in Hbc. subst. now rewrite Hab.
  - now rewrite (string_compare_trans _ _ _ Hab Hbc).
Qed.

Lemma insert_sorted_ascending (x : string) (l : list string) :
  ascending l -> ascending (insert_sorted x l).
Proof.
  unfold ascending.
  induction 1 as [|y t Ht IH Hall]; simpl.
  - repeat constructor.
  - destruct (String.leb x y) eqn:Hxy.
    + constructor; [now constructor|].
      constructor; [exact Hxy|].
      rewrite Forall_forall in Hall |- *. intros z Hz.
      eapply string_leb_trans; [exact Hxy|now apply Hall].
    + constructor; [exact IH|].
      rewrite Forall_forall in Hall |- *. intros z Hz.
      apply In_insert_sorted in Hz. destruct Hz as [->|Hz]; [|now apply Hall].
      destruct (String.leb_total x y) as [H|H]; [congruence|exact H].
Qed.

Lemma sorted_ascending (l : list string) : ascending (sorted l).
Proof.
  unfold sorted. assert (H : ascending []) by constructor.
  revert H. generalize (@nil string).
  induction l as [|x l IH]; simpl; intros acc Hacc; [exact Hacc|].
  apply IH. now apply insert_sorted_ascending.
Qed.

(** X11. The options of the category control are the categories of the
    clean records, each once, in ascending order. *)
Theorem categories_unique_spec {W : Type} {WA : Additive W} (df : list (CleanRecord W)) :
  ascending (categories_unique df) /\
  NoDup (categories_unique df) /\
  forall c, In c (categories_unique df) <-> exists r, In r df /\ Category r = c.
Proof.
  split; [apply sorted_ascending|]. split.
  - apply categories_unique_NoDup.
  - apply In_categories_unique.
Qed.

(** ** The table under the sidebar filters (lines 24-52) *)

Lemma range_app (lo mid hi : Z) :
  lo <= mid <= hi -> range lo hi = (range lo mid ++ range mid hi)%list.
Proof.
  intros H. unfold range.
  replace (Z.to_nat (hi - lo)) with (Z.to_nat (mid - lo) + Z.to_nat (hi - mid))%nat by lia.
  rewrite seq_app, map_app. f_equal. simpl.
  assert (Hshift : forall n a b lo' mid', lo' + Z.of_nat a = mid' + Z.of_nat b ->
            map (fun i => lo' + Z.of_nat i) (seq a n)
            = map (fun i => mid' + Z.of_nat i) (seq b n)).
  { induction n as [|n IH]; intros a b lo' mid' Hab; simpl; [reflexivity|].
    f_equal; [exact Hab|]. apply IH. lia. }
  apply Hshift. lia.
Qed.

Lemma filter_range (lo hi lo' hi' : Z) :
  lo <= lo' -> hi' <= hi ->
  filter (fun y => Z.leb lo' y && Z.ltb y hi')%bool (range lo hi) = range lo' hi'.
Proof.
  intros Hlo Hhi. destruct (Z.le_gt_cases lo' hi') as [Hle|Hgt].
  - rewrite (range_app lo lo' hi), (range_app lo' hi' hi) by lia.
    rewrite !filter_app.
    rewrite (filter_none _ (range lo lo')), (filter_all _ (range lo' hi')),
      (filter_none _ (range hi' hi)).
    + now rewrite app_nil_r.
    + intros y Hy. apply In_range in Hy. apply andb_false_iff. right.
      apply Z.ltb_ge. lia.
    + intros y Hy. apply In_range in Hy. apply andb_true_iff.
      rewrite Z.leb_le, Z.ltb_lt. lia.
    + intros y Hy. apply In_range in Hy. apply andb_false_iff. left.
      apply Z.leb_gt. lia.
  - rewrite (range_empty lo' hi') by lia. apply filter_none.
    intros y _. apply andb_false_iff.
    destruct (Z.leb_spec lo' y); [right; apply Z.ltb_ge; lia|now left].
Qed.

Lemma filter_filter_implied {A : Type} (p q : A -> bool) (l : list A) :
  (forall a, In a l -> q a = true -> p a = true) ->
  filter q (filter p l) = filter q l.
Proof.
  induction l as [|a l IH]; simpl; intros H; [reflexivity|].
  assert (IH' : filter q (filter p l) = filter q l)
    by (apply IH; intros b Hb; apply H; now right).
  destruct (p a) eqn:Hp; simpl.
  - now rewrite IH'.
  - destruct (q a) eqn:Hq; [|exact IH'].
    rewrite (H a) in Hp by auto. discriminate.
Qed.

Section SidebarFilters.

Context {W : Type} {WA : Additive W}.

Implicit Types (df : list (CleanRecord W)) (C : list string).

Lemma selected_true (y0 y1 : Z) C (r : CleanRecord W) :
  selected y0 y1 C r = true <-> y0 <= Year r <= y1 /\ In (Category r) C.
Proof.
  unfold selected. rewrite andb_true_iff, in_years_true, existsb_exists. split.
  - intros [Hy (c & Hc & He)]. apply String.eqb_eq in He. now subst c.
  - intros [Hy Hc]. split; [exact Hy|]. exists (Category r).
    split; [exact Hc|apply String.eqb_refl].
Qed.

(** The table only reads the records that pass both filters. *)
Lemma filtered_df_reads_selected df (y0 y1 : Z) C :
  filtered_df df y0 y1 C = filtered_df (filter (selected y0 y1 C) df) y0 y1 C.
Proof.
  rewrite !filtered_df_cells. apply map_ext_in. intros [y c] Hl.
  apply In_full_index in Hl. unfold cell. do 3 f_equal. symmetry.
  apply filter_filter_implied. intros r _ Hr.
  apply has_label_true in Hr. unfold key in Hr. inversion Hr; subst.
  now apply selected_true.
Qed.

(** X12. A record outside the selected year range or of a category that is
    not selected has no effect on anything given to the views. *)
Theorem dashboard_reads_selected_only df (y0 y1 : Z) C :
  dashboard df y0 y1 C = dashboard (filter (selected y0 y1 C) df) y0 y1 C.
Proof. unfold dashboard. now rewrite <- filtered_df_reads_selected. Qed.

Lemma In_years_full (y : Z) : In y years_full <-> 2005 <= y <= 2025.
Proof. unfold years_full. rewrite In_range. lia. Qed.


(** X14. For a range taken from the slider, every year of the table is on
    the fixed axis [years_full] that the charts are given. *)
Theorem table_years_on_axis df (min_year max_year : Z) C (r : CleanRecord W) :
  In min_year years_full -> In max_year years_full ->
  In r (filtered_df df min_year max_year C) -> In (Year r) years_full.
Proof.
  intros Hmin Hmax Hr. apply In_years_full in Hmin, Hmax.
  assert (Hk : In (key r) (map key (filtered_df df min_year max_year C)))
    by now apply in_map.
  rewrite filtered_df_labels in Hk. unfold key in Hk.
  apply In_full_index in Hk. apply In_years_full. lia.
Qed.

Lemma filter_cells_product df (p : Z -> bool) (q : string -> bool) (ys : list Z) C :
  filter (fun r => p (Year r) && q (Category r))%bool (map (cell df) (from_product ys C))
  = map (cell df) (from_product (filter p ys) (filter q C)).
Proof.
  unfold from_product. induction ys as [|y ys IH]; [reflexivity|].
  assert (Hrow : filter (fun r => p (Year r) && q (Category r))%bool
                   (map (cell df) (map (pair y) C))
                 = if p y then map (cell df) (map (pair y) (filter q C)) else []).
  { clear IH. induction C as [|c C IHC]; simpl; [now destruct (p y)|].
    rewrite IHC. destruct (p y), (q c); reflexivity. }
  cbn [flat_map filter]. rewrite map_app, filter_app.
  etransitivity; [apply (f_equal2 (@app _)); [exact Hrow|exact IH]|].
  destruct (p y); cbn [flat_map]; [now rewrite map_app|reflexivity].
Qed.

(** X15. Narrowing the category selection only removes rows: the table of
    a sub-selection is the table of the selection without the rows of the
    categories left out. *)
Theorem narrowing_categories_filters_table df (y0 y1 : Z) C (q : string -> bool) :
  filtered_df df y0 y1 (filter q C)
    = filter (fun r => q (Category r)) (filtered_df df y0 y1 C).
Proof.
  rewrite !filtered_df_cells. unfold full_index. symmetry.
  etransitivity;
    [exact (filter_cells_product df (fun _ => true) q (range y0 (y1 + 1)) C)|].
  do 2 f_equal. apply filter_all. reflexivity.
Qed.

(** X16. Narrowing the year range only removes rows: inside a wider range,
    the table of the narrower range is the wider table restricted to its
    years. *)
Theorem narrowing_years_filters_table df (y0 y1 y0' y1' : Z) C :
  y0 <= y0' -> y1' <= y1 ->
  filtered_df df y0' y1' C = filter (in_years y0' y1') (filtered_df df y0 y1 C).
Proof.
  intros Hlo Hhi. rewrite !filtered_df_cells. unfold full_index. symmetry.
  rewrite (filter_ext (in_years y0' y1')
             (fun r => (fun y => Z.leb y0' y && Z.ltb y (y1' + 1)) (Year r)
                       && (fun _ => true) (Category r))%bool).
  - etransitivity;
      [exact (filter_cells_product df (fun y => Z.leb y0' y && Z.ltb y (y1' + 1))%bool
                (fun _ => true) (range y0 (y1 + 1)) C)|].
    rewrite filter_range by lia. do 2 f_equal. apply filter_all. reflexivity.
  - intros r. unfold in_years. rewrite andb_true_r. f_equal.
    apply bool_eq_iff. rewrite Z.leb_le, Z.ltb_lt. lia.
Qed.

End SidebarFilters.

(** ** The table total and the pie chart (lines 45-62) *)

Section TotalsOfSelection.

Context {W : Type} {WA : Additive W}.

Implicit Types (df : list (CleanRecord W)) (C : list string).

Lemma agg_pie_row_iff (rows : list (CleanRecord W)) (c : string) (w : W) :
  In (c, w) (agg_pie rows) <->
  (exists r, In r rows /\ Category r = c) /\
  w = sum_weights (map Weight (filter (in_category c) rows)).
Proof.
  unfold agg_pie.
  rewrite (increasing_In_assoc String.compare)
    by apply (groupby_sum_increasing String.compare).
  rewrite assoc_groupby_sum by exact _.
  replace (members String.compare Category c rows) with (filter (in_category c) rows).
  - destruct (filter (in_category c) rows) as [|r rs] eqn:Hf.
    + split; [discriminate|]. intros [(r & Hr & Hc) _]. exfalso.
      assert (Hin : In r (filter (in_category c) rows))
        by (apply filter_In; split; [exact Hr|now apply in_category_true]).
      rewrite Hf in Hin. destruct Hin.
    + split.
      * intros [= <-]. split; [|reflexivity]. exists r.
        assert (Hin : In r (filter (in_category c) rows)) by (rewrite Hf; now left).
        apply filter_In in Hin. destruct Hin as [Hin Hc].
        apply in_category_true in Hc. auto.
      * intros [_ ->]. reflexivity.
  - unfold members. apply filter_ext. intros r.
    apply bool_eq_iff. rewrite (is_Eq_true String.compare), in_category_true.
    split; congruence.
Qed.

Lemma existsb_full_index (y0 y1 : Z) C (r : CleanRecord W) :
  existsb (fun l => has_label l r) (full_index y0 y1 C) = selected y0 y1 C r.
Proof.
  apply bool_eq_iff. rewrite existsb_exists, selected_true. split.
  - intros ([y c] & Hl & Hk). apply In_full_index in Hl.
    apply has_label_true in Hk. unfold key in Hk. inversion Hk; subst. exact Hl.
  - intros H. exists (key r). split; [|now apply has_label_true].
    unfold key. now apply In_full_index.
Qed.

(** X17. The weights of the table add up to the weights of the clean
    records that pass both filters, for every selection without repetition.
    Weights are added exactly. *)
Theorem table_total_is_selected_total {EXACT : ExactNum W} df (y0 y1 : Z) C :
  NoDup C ->
  sum_weights (map Weight (filtered_df df y0 y1 C))
    = sum_weights (map Weight (filter (selected y0 y1 C) df)).
Proof.
  intros HC. rewrite filtered_df_cells, sum_cells.
  - do 2 f_equal. apply filter_ext. intros r. apply existsb_full_index.
  - apply from_product_NoDup; [apply range_NoDup|exact HC].
Qed.

Lemma category_rows_total {EXACT : ExactNum W} df (y0 y1 : Z) C (c : string) :
  NoDup C -> In c C ->
  sum_weights (map Weight (filter (in_category c) (filtered_df df y0 y1 C)))
    = sum_weights (map Weight
        (filter (fun r => in_category c r && in_years y0 y1 r)%bool df)).
Proof.
  intros HC Hc. rewrite filtered_df_cells. unfold full_index.
  rewrite filter_category_table by assumption.
  rewrite <- (map_map (fun y => (y, c)) (cell df)).
  rewrite sum_cells.
  - do 2 f_equal. apply filter_ext. intros r.
    apply bool_eq_iff. rewrite existsb_exists, andb_true_iff.
    rewrite in_category_true, in_years_true. split.
    + intros (l & Hl & Hr). apply in_map_iff in Hl. destruct Hl as (y & <- & Hy).
      apply has_label_true in Hr. unfold key in Hr. inversion Hr; subst.
      apply In_range in Hy. split; [reflexivity|lia].
    + intros [Hcat Hy]. exists (Year r, c). split.
      * apply (in_map (fun y => (y, c))). apply In_range. lia.
      * apply has_label_true. unfold key. now rewrite Hcat.
  - apply Injective_map_NoDup; [|apply range_NoDup]. now intros y y' [= ->].
Qed.

(** X18. For a non-empty year range and a selection without repetition, the
    pie chart is given one row per selected category, in ascending category
    order; the row holds the total weight of the clean records of that
    category dated in the range, which is zero for a category without such
    records.  Weights are added exactly. *)
Theorem pie_of_table {EXACT : ExactNum W} df (y0 y1 : Z) C :
  y0 <= y1 -> NoDup C ->
  increasing String.compare (pie (dashboard df y0 y1 C)) /\
  forall c w, In (c, w) (pie (dashboard df y0 y1 C)) <->
    In c C /\
    w = sum_weights (map Weight
          (filter (fun r => in_category c r && in_years y0 y1 r)%bool df)).
Proof.
  intros Hy HC. split; [apply (groupby_sum_increasing String.compare)|].
  intros c w. unfold dashboard. simpl. rewrite agg_pie_row_iff.
  assert (Hcat : (exists r, In r (filtered_df df y0 y1 C) /\ Category r = c) <-> In c C).
  { split.
    - intros (r & Hr & <-).
      assert (Hk : In (key r) (map key (filtered_df df y0 y1 C))) by now apply in_map.
      rewrite filtered_df_labels in Hk. unfold key in Hk.
      now apply In_full_index in Hk.
    - intros Hc. exists (cell df (y0, c)). split; [|reflexivity].
      rewrite filtered_df_cells. apply in_map. apply In_full_index. split; [lia|exact Hc]. }
  rewrite Hcat. split; intros [Hc ->]; (split; [exact Hc|]).
  - now apply category_rows_total.
  - symmetry. now apply category_rows_total.
Qed.

(** X19. On the first render (default controls) the table has 21 rows per
    category of the data, and every clean record dated 2005-2025 has its
    (Year, Category) pair among the labels of the table. *)
Theorem initial_dashboard_covers df :
  List.length (table (initial_dashboard df))
    = (21 * List.length (categories_unique df))%nat /\
  forall r, In r df -> 2005 <= Year r <= 2025 ->
    In (Year r, Category r) (map key (table (initial_dashboard df))).
Proof.
  unfold initial_dashboard, dashboard. simpl table.
  change (hd 0 years_full) with 2005. change (last years_full 0) with 2025.
  split.
  - rewrite <- (length_map key (filtered_df df 2005 2025 (categories_unique df))).
    rewrite filtered_df_labels. unfold full_index.
    now rewrite from_product_length, range_length.
  - intros r Hr Hy. rewrite filtered_df_labels.
    apply In_full_index. split; [exact Hy|].
    apply In_categories_unique. now exists r.
Qed.

End TotalsOfSelection.

(** ** The dtype of the Weight column (line 13) *)

Lemma cleaned_rows_dtype (read_number : string -> number) (col : list scalar)
  (raws : list RawRecord) (recs : list (CleanRecord number)) :
  (forall r, In r raws -> In (Weight r) col) ->
  Forall2 (cleaned read_number col) raws recs ->
  Forall (fun rec => is_int (Weight rec) = true) recs \/
  Forall (fun rec => is_int (Weight rec) = false) recs.
Proof.
  intros Hsub Hcl. unfold cleaned, to_numeric in Hcl.
  destruct (forallb (fun u => is_int (to_numeric_cell read_number u)) col) eqn:Hall.
  - left. rewrite forallb_forall in Hall.
    induction Hcl as [|raw rec raws recs (_ & Hw & _) _ IH]; constructor.
    + rewrite Hw. apply Hall, Hsub. now left.
    + apply IH. intros r Hr. apply Hsub. now right.
  - right. clear Hsub.
    induction Hcl as [|raw rec raws recs (_ & Hw & _) _ IH]; constructor.
    + now rewrite Hw.
    + exact IH.
Qed.

(** X20. The Weight column [load_data] returns has one dtype: either every
    weight is an integer or every weight is a float64. *)
Theorem load_data_weight_dtype (read_number : string -> number) (df : list RawRecord)
  (recs : list (CleanRecord number)) :
  load_data read_number df = OK recs ->
  Forall (fun rec => is_int (Weight rec) = true) recs \/
  Forall (fun rec => is_int (Weight rec) = false) recs.
Proof.
  intros Hload. load_data_unfold Hload.
  destruct (is_object (map Category df)); simpl in Hload; [|discriminate].
  apply load_rows_cleaned in Hload.
  eapply cleaned_rows_dtype; [|exact Hload].
  intros r Hr. apply filter_In in Hr. apply (in_map Weight). tauto.
Qed.

(** ** The further properties at concrete inputs *)

Lemma normalization_idempotent_witness :
  is_ascii " paper" = true /\
  str_strip_title (Str " paper") = Some "Paper" /\
  str_strip_title (Str "Paper") = Some "Paper".
Proof.
  assert (Ha : is_ascii " paper" = true) by reflexivity.
  assert (H : str_strip_title (Str " paper") = Some "Paper") by reflexivity.
  split; [exact Ha|]. split; [exact H|].
  exact (normalization_idempotent " paper" "Paper" Ha H).
Defined.

Lemma normalization_ignores_case_and_padding_witness :
  all_space " " = true /\ all_space "" = true /\
  lowercase "paper" = lowercase "PAPER" /\
  str_strip_title (Str (" " ++ "paper" ++ "")) = str_strip_title (Str ("" ++ "PAPER" ++ " ")).
Proof.
  assert (H1 : all_space " " = true) by reflexivity.
  assert (H2 : all_space "" = true) by reflexivity.
  assert (H3 : lowercase "paper" = lowercase "PAPER") by reflexivity.
  split; [exact H1|]. split; [exact H2|]. split; [exact H3|].
  exact (normalization_ignores_case_and_padding "paper" "PAPER" " " "" "" " " H1 H2 H2 H1 H3).
Defined.

Lemma load_data_raises_witness :
  ascii_texts (map Year [mkRow (Str "Paper") (Num (Int 10)) (Str "abc")]) /\
  load_data read_integer [mkRow (Str "Paper") (Num (Int 10)) (Str "abc")]
    = Raise ValueError /\
  ((ValueError = AttributeError /\
    is_object (map Category [mkRow (Str "Paper") (Num (Int 10)) (Str "abc")]) = false) \/
   (is_object (map Category [mkRow (Str "Paper") (Num (Int 10)) (Str "abc")]) = true /\
    ValueError <> AttributeError /\
    exists r, In r [mkRow (Str "Paper") (Num (Int 10)) (Str "abc")] /\
      complete read_integer (map Weight [mkRow (Str "Paper") (Num (Int 10)) (Str "abc")]) r
        = true /\
      astype_int (Year r) = Raise ValueError)).
Proof.
  assert (H : load_data read_integer [mkRow (Str "Paper") (Num (Int 10)) (Str "abc")]
              = Raise ValueError) by reflexivity.
  assert (Ha : ascii_texts (map Year [mkRow (Str "Paper") (Num (Int 10)) (Str "abc")]))
    by (repeat constructor).
  split; [exact Ha|]. split; [exact H|].
  exact (load_data_raises read_integer _ ValueError Ha H).
Defined.

Lemma load_data_categories_canonical_witness :
  ascii_texts (map Category
    [mkRow (Str " paper") (Str "12") (Num (Int 2020));
     mkRow (Str "PAPER ") (Str "unknown") (Num (Int 2021))]) /\
  load_data read_integer
    [mkRow (Str " paper") (Str "12") (Num (Int 2020));
     mkRow (Str "PAPER ") (Str "unknown") (Num (Int 2021))]
    = OK [mkRow "Paper" (Float (float_of_Z 12)) 2020] /\
  Forall (fun rec => str_strip_title (Str (Category rec)) = Some (Category rec))
    [mkRow "Paper" (Float (float_of_Z 12)) 2020].
Proof.
  assert (H : load_data read_integer
    [mkRow (Str " paper") (Str "12") (Num (Int 2020));
     mkRow (Str "PAPER ") (Str "unknown") (Num (Int 2021))]
    = OK [mkRow "Paper" (Float (float_of_Z 12)) 2020]) by reflexivity.
  assert (Ha : ascii_texts (map Category
    [mkRow (Str " paper") (Str "12") (Num (Int 2020));
     mkRow (Str "PAPER ") (Str "unknown") (Num (Int 2021))]))
    by (repeat constructor).
  split; [exact Ha|]. split; [exact H|].
  exact (load_data_categories_canonical read_integer _ _ Ha H).
Defined.

Lemma load_data_weight_dtype_witness :
  load_data read_integer
    [mkRow (Str " paper") (Str "12") (Num (Int 2020));
     mkRow (Str "PAPER ") (Str "unknown") (Num (Int 2021))]
    = OK [mkRow "Paper" (Float (float_of_Z 12)) 2020] /\
  (Forall (fun rec => is_int (Weight rec) = true)
     [mkRow "Paper" (Float (float_of_Z 12)) 2020] \/
   Forall (fun rec => is_int (Weight rec) = false)
     [mkRow "Paper" (Float (float_of_Z 12)) 2020]).
Proof.
  assert (H : load_data read_integer
    [mkRow (Str " paper") (Str "12") (Num (Int 2020));
     mkRow (Str "PAPER ") (Str "unknown") (Num (Int 2021))]
    = OK [mkRow "Paper" (Float (float_of_Z 12)) 2020]) by reflexivity.
  split; [exact H|]. exact (load_data_weight_dtype read_integer _ _ H).
Defined.

Lemma year_float_roundtrip_witness :
  Z.abs 2020 < 2 ^ 53 /\
  isna (Num (Float (float_of_Z 2020))) = false /\
  astype_int (Num (Float (float_of_Z 2020))) = OK 2020.
Proof.
  assert (H : Z.abs 2020 < 2 ^ 53) by reflexivity.
  split; [exact H|]. exact (year_float_roundtrip 2020 H).
Defined.

Lemma df_grouped_conserves_total_witness :
  ExactNum Z /\
  sum_weights (map Weight (df_grouped spec_example)) = sum_weights (map Weight spec_example).
Proof.
  split; [exact Z_ExactNum|].
  exact (df_grouped_conserves_total (EXACT := Z_ExactNum) spec_example).
Defined.

Lemma input_order_irrelevant_witness :
  ExactNum Z /\ Permutation.Permutation spec_example spec_example_reordered /\
  (df_grouped spec_example = df_grouped spec_example_reordered /\
   categories_unique spec_example = categories_unique spec_example_reordered /\
   forall y0 y1 C, dashboard spec_example y0 y1 C = dashboard spec_example_reordered y0 y1 C).
Proof.
  assert (H : Permutation.Permutation spec_example spec_example_reordered)
    by apply Permutation.perm_swap.
  split; [exact Z_ExactNum|]. split; [exact H|].
  exact (input_order_irrelevant (EXACT := Z_ExactNum) spec_example spec_example_reordered H).
Defined.

Lemma df_grouped_idempotent_witness :
  ExactNum Z /\ df_grouped (df_grouped spec_example) = df_grouped spec_example.
Proof.
  split; [exact Z_ExactNum|].
  exact (df_grouped_idempotent (EXACT := Z_ExactNum) spec_example).
Defined.


Lemma table_years_on_axis_witness :
  In 2020 years_full /\ In 2021 years_full /\
  In (mkRow "Paper" 15 2020) (filtered_df spec_example 2020 2021 ["Paper"; "Glass"]) /\
  In 2020 years_full.
Proof.
  assert (H1 : In 2020 years_full) by (apply In_years_full; lia).
  assert (H2 : In 2021 years_full) by (apply In_years_full; lia).
  assert (H3 : In (mkRow "Paper" 15 2020)
                 (filtered_df spec_example 2020 2021 ["Paper"; "Glass"]))
    by (left; reflexivity).
  split; [exact H1|]. split; [exact H2|]. split; [exact H3|].
  exact (table_years_on_axis spec_example 2020 2021 ["Paper"; "Glass"]
           (mkRow "Paper" 15 2020) H1 H2 H3).
Defined.

Lemma narrowing_years_filters_table_witness :
  2019 <= 2021 /\ 2021 <= 2022 /\
  filtered_df spec_example 2021 2021 ["Paper"; "Glass"]
    = filter (in_years 2021 2021) (filtered_df spec_example 2019 2022 ["Paper"; "Glass"]).
Proof.
  assert (H1 : 2019 <= 2021) by lia.
  assert (H2 : 2021 <= 2022) by lia.
  split; [exact H1|]. split; [exact H2|].
  exact (narrowing_years_filters_table spec_example 2019 2022 2021 2021
           ["Paper"; "Glass"] H1 H2).
Defined.

Lemma table_total_is_selected_total_witness :
  ExactNum Z /\ NoDup ["Paper"; "Glass"] /\
  sum_weights (map Weight (filtered_df spec_example 2020 2021 ["Paper"; "Glass"]))
    = sum_weights (map Weight (filter (selected 2020 2021 ["Paper"; "Glass"]) spec_example)).
Proof.
  split; [exact Z_ExactNum|]. split; [exact two_categories_NoDup|].
  exact (table_total_is_selected_total (EXACT := Z_ExactNum) spec_example 2020 2021
           ["Paper"; "Glass"] two_categories_NoDup).
Defined.

Lemma pie_of_table_witness :
  ExactNum Z /\ 2020 <= 2021 /\ NoDup ["Paper"; "Glass"] /\
  (increasing String.compare (pie (dashboard spec_example 2020 2021 ["Paper"; "Glass"])) /\
   forall c w, In (c, w) (pie (dashboard spec_example 2020 2021 ["Paper"; "Glass"])) <->
     In c ["Paper"; "Glass"] /\
     w = sum_weights (map Weight
           (filter (fun r => in_category c r && in_years 2020 2021 r)%bool spec_example))).
Proof.
  assert (Hy : 2020 <= 2021) by lia.
  split; [exact Z_ExactNum|]. split; [exact Hy|]. split; [exact two_categories_NoDup|].
  exact (pie_of_table (EXACT := Z_ExactNum) spec_example 2020 2021 ["Paper"; "Glass"]
           Hy two_categories_NoDup).
Defined.

Lemma load_data_total_on_numeric_years_witness :
  is_object (map Category
    [mkRow (Str " paper") (Str "12") (Num (Float (float_of_Z 2020)));
     mkRow (Str "glass") (Str "7") (Num (Float NaN))]) = true /\
  Forall (fun r => year_is_number (Year r) = true)
    [mkRow (Str " paper") (Str "12") (Num (Float (float_of_Z 2020)));
     mkRow (Str "glass") (Str "7") (Num (Float NaN))] /\
  exists recs, load_data read_integer
    [mkRow (Str " paper") (Str "12") (Num (Float (float_of_Z 2020)));
     mkRow (Str "glass") (Str "7") (Num (Float NaN))] = OK recs.
Proof.
  assert (H1 : is_object (map Category
    [mkRow (Str " paper") (Str "12") (Num (Float (float_of_Z 2020)));
     mkRow (Str "glass") (Str "7") (Num (Float NaN))]) = true) by reflexivity.
  assert (H2 : Forall (fun r => year_is_number (Year r) = true)
    [mkRow (Str " paper") (Str "12") (Num (Float (float_of_Z 2020)));
     mkRow (Str "glass") (Str "7") (Num (Float NaN))])
    by (repeat constructor).
  split; [exact H1|]. split; [exact H2|].
  exact (load_data_total_on_numeric_years read_integer _ H1 H2).
Defined.

Lemma load_data_returns_iff_witness :
  ascii_texts (map Year
    [mkRow (Str "Paper") (Str "unknown") (Str "abc");
     mkRow (Str "Glass") (Num (Int 3)) (Str " 2021 ")]) /\
  ((exists recs, load_data read_integer
      [mkRow (Str "Paper") (Str "unknown") (Str "abc");
       mkRow (Str "Glass") (Num (Int 3)) (Str " 2021 ")] = OK recs) <->
   is_object (map Category
      [mkRow (Str "Paper") (Str "unknown") (Str "abc");
       mkRow (Str "Glass") (Num (Int 3)) (Str " 2021 ")]) = true /\
   Forall (fun r => complete read_integer (map Weight
                      [mkRow (Str "Paper") (Str "unknown") (Str "abc");
                       mkRow (Str "Glass") (Num (Int 3)) (Str " 2021 ")]) r = true ->
                    exists y, astype_int (Year r) = OK y)
      [mkRow (Str "Paper") (Str "unknown") (Str "abc");
       mkRow (Str "Glass") (Num (Int 3)) (Str " 2021 ")]).
Proof.
  assert (Ha : ascii_texts (map Year
    [mkRow (Str "Paper") (Str "unknown") (Str "abc");
     mkRow (Str "Glass") (Num (Int 3)) (Str " 2021 ")])) by (repeat constructor).
  split; [exact Ha|].
  exact (load_data_returns_iff read_integer _ Ha).
Defined.

Lemma df_grouped_rows_witness :
  ExactNum Z /\
  (labels_increasing (df_grouped spec_example) /\
   forall c w y, In (mkRow c w y) (df_grouped spec_example) <->
     (exists r, In r spec_example /\ Year r = y /\ Category r = c) /\
     w = sum_weights (map Weight (filter (has_label (y, c)) spec_example))).
Proof.
  split; [exact Z_ExactNum|].
  exact (df_grouped_rows (EXACT := Z_ExactNum) spec_example).
Defined.
